(** * Resource graphs declared by the two CDK stacks

    A shallow embedding of the two stack constructors of the repository
    ([AWSstack], a load-balanced web fleet with a MySQL database, and
    [Ec2LoggingStack], a single instance shipping its logs), read as a
    declarative resource-graph builder: every [new X(this, id, props)]
    appends one resource node to the stack under construction, and every
    mutator called on a construct ([addIngressRule], [addManagedPolicy],
    [applyRemovalPolicy], ...) rewrites the node it is called on. *)

From Stdlib Require Import List String Ascii ZArith Bool Lia.
Import ListNotations.
Local Open Scope string_scope.

Set Warnings "-register-all".

(** ** Strings *)

Module Str.

(** The double quote, for the literals of the bootstrap scripts. *)
Definition dq : string := String (ascii_of_nat 34) EmptyString.

(** [q s] is [s] between double quotes. *)
Definition q (s : string) : string := dq ++ s ++ dq.

Definition LF : ascii := ascii_of_nat 10.
Definition newline : string := String LF EmptyString.

(** [Array.prototype.join]. *)
Definition join (sep : string) (l : list string) : string :=
  String.concat sep l.

(** [String.prototype.split] on a one-character separator: the fields
    between the separators, the empty string giving one empty field. *)
Fixpoint split (sep : ascii) (s : string) : list string :=
  match s with
  | EmptyString => [EmptyString]
  | String c rest =>
      if Ascii.eqb c sep then EmptyString :: split sep rest
      else match split sep rest with
           | [] => [String c EmptyString]
           | field :: fields => String c field :: fields
           end
  end.

(** [mem c s]: the character [c] occurs in [s]. *)
Fixpoint mem (c : ascii) (s : string) : bool :=
  match s with
  | EmptyString => false
  | String d rest => Ascii.eqb d c || mem c rest
  end.

(** [String.prototype.includes]. *)
Fixpoint includes (needle s : string) : bool :=
  String.prefix needle s
  || match s with
     | EmptyString => false
     | String _ rest => includes needle rest
     end.

(** The part of [s] after the first occurrence of [needle]. *)
Fixpoint after (needle s : string) : option string :=
  if String.prefix needle s
  then Some (String.substring (String.length needle)
               (String.length s - String.length needle) s)
  else match s with
       | EmptyString => None
       | String _ rest => after needle rest
       end.

(** The part of [s] before the first occurrence of the character [c]. *)
Fixpoint before (c : ascii) (s : string) : option string :=
  match s with
  | EmptyString => None
  | String d rest =>
      if Ascii.eqb d c then Some EmptyString
      else option_map (String d) (before c rest)
  end.

End Str.

(** ** Data model *)

(** A reference to a construct of the stack: its construct id. *)
Definition NodeRef := string.

Inductive SubnetType := PUBLIC | PRIVATE_WITH_EGRESS | PRIVATE_ISOLATED.

Inductive RemovalPolicy := DESTROY | RETAIN | SNAPSHOT.

Inductive RetentionDays :=
  ONE_DAY | THREE_DAYS | FIVE_DAYS | ONE_WEEK | TWO_WEEKS | ONE_MONTH.

(** Modelled from the spec: the framework's [RetentionDays] enumeration
    is not part of the sources; each member is the number of days it
    names (retention = 7 days for [ONE_WEEK]). *)
Definition retentionDays (r : RetentionDays) : Z :=
  match r with
  | ONE_DAY => 1 | THREE_DAYS => 3 | FIVE_DAYS => 5
  | ONE_WEEK => 7 | TWO_WEEKS => 14 | ONE_MONTH => 30
  end.

(** A log filter pattern, as the text handed to the log service. *)
Record FilterPattern := { logPatternString : string }.

Module FilterPattern.

(** Modelled from the spec: [FilterPattern.allEvents()] is the
    framework's match-all filter, the pattern with no term. *)
Definition allEvents : FilterPattern := {| logPatternString := EmptyString |}.

(** The terms of a pattern: its non-empty space-separated words. *)
Definition terms (p : FilterPattern) : list string :=
  filter (fun t => negb (String.eqb t EmptyString))
         (Str.split " "%char (logPatternString p)).

(** Modelled from the spec: an event matches a pattern when its message
    holds every term of the pattern. *)
Definition matches (p : FilterPattern) (message : string) : bool :=
  forallb (fun t => Str.includes t message) (terms p).

End FilterPattern.

(** The bootstrap script of a compute resource: its command lines. *)
Record UserData := { lines : list string }.

Module UserData.

Definition forLinux : UserData := {| lines := [] |}.

(** The interpreter line of a Linux script. *)
Definition shebang : string := "#!/bin/bash".

(** [userData.addCommands(...commands)]. *)
Definition addCommands (u : UserData) (commands : list string) : UserData :=
  {| lines := lines u ++ commands |}.

(** Modelled from the spec: the framework's rendering of a [UserData]
    is not part of the sources; the bootstrap script generator
    concatenates the command strings into one script blob, one command
    per line, in order and uninterpreted. The blob of a script made with
    [forLinux] starts with the interpreter line, which the framework
    puts before the commands. *)
Definition render (u : UserData) : string :=
  Str.join Str.newline (shebang :: lines u).

(** The script blob split on line boundaries. *)
Definition blobLines (blob : string) : list string := Str.split Str.LF blob.

End UserData.

(** Parameter values: literals, references to constructs, deferred
    attributes of constructs, and the framework's enumeration members
    and factory calls, kept symbolic. *)
Inductive Value :=
| VStr (s : string)
| VNum (n : Z)
| VBool (b : bool)
| VEnum (member : string)
| VSubnetType (t : SubnetType)
| VRetention (r : RetentionDays)
| VRemoval (p : RemovalPolicy)
| VPattern (p : FilterPattern)
| VUserData (u : UserData)
| VRef (r : NodeRef)
| VAttr (r : NodeRef) (attribute : string)
| VList (items : list Value)
| VObj (fields : list (string * Value))
| VCall (factory : string) (args : list Value)
| VTemplate (parts : list Value).

Definition Props := list (string * Value).

Inductive Protocol := TCP | UDP | ICMP.

(** The source of a security rule: an address range, or the members of
    a security group of the stack. *)
Inductive Peer :=
| CidrIpv4 (base mask : Z)
| SecurityGroupPeer (sg : NodeRef).

Record Port := { portProtocol : Protocol; portNumber : Z }.

Inductive Direction := Ingress | Egress.

Record SecurityRule := {
  direction : Direction;
  protocol : Protocol;
  port : Z;
  source : Peer;
  description : string
}.

Record ManagedPolicy := { managedPolicyName : string }.

Record PolicyStatement := {
  actions : list string;
  resources : list Value
}.

Inductive Kind :=
| KVpc | KSecurityGroup | KSecret | KSubnetGroup | KDatabaseInstance
| KApplicationLoadBalancer | KRole | KAutoScalingGroup
| KApplicationListener | KApplicationTargetGroup | KCfnOutput
| KLogGroup | KInstance | KBucket | KFunction | KSubscriptionFilter
| KSecretTargetAttachment.

(** The kinds of dependency edge between two nodes. *)
Inductive EdgeKind :=
| ParameterReference
| SecurityRuleReference
| TargetMembership
| Routing
| PolicyReference.

Record Dependency := { edgeKind : EdgeKind; target : NodeRef }.

Record ResourceNode := {
  kind : Kind;
  name : string;
  parameters : Props;
  rules : list SecurityRule;
  managedPolicies : list ManagedPolicy;
  statements : list PolicyStatement;
  removalPolicy : option RemovalPolicy;
  dependsOn : list Dependency
}.

Record Environment := { region : option string }.
Record StackProps := { env : option Environment }.

(** A stack under construction: its nodes in declaration order. *)
Record Stack := {
  stackId : string;
  stackProps : option StackProps;
  nodes : list ResourceNode
}.

(** ** Equality tests *)

Definition Kind_eqb (a b : Kind) : bool :=
  match a, b with
  | KVpc, KVpc | KSecurityGroup, KSecurityGroup | KSecret, KSecret
  | KSubnetGroup, KSubnetGroup | KDatabaseInstance, KDatabaseInstance
  | KApplicationLoadBalancer, KApplicationLoadBalancer | KRole, KRole
  | KAutoScalingGroup, KAutoScalingGroup
  | KApplicationListener, KApplicationListener
  | KApplicationTargetGroup, KApplicationTargetGroup
  | KCfnOutput, KCfnOutput | KLogGroup, KLogGroup | KInstance, KInstance
  | KBucket, KBucket | KFunction, KFunction
  | KSubscriptionFilter, KSubscriptionFilter
  | KSecretTargetAttachment, KSecretTargetAttachment => true
  | _, _ => false
  end.

Definition Protocol_eqb (a b : Protocol) : bool :=
  match a, b with
  | TCP, TCP | UDP, UDP | ICMP, ICMP => true
  | _, _ => false
  end.

Definition Direction_eqb (a b : Direction) : bool :=
  match a, b with
  | Ingress, Ingress | Egress, Egress => true
  | _, _ => false
  end.

Definition SubnetType_eqb (a b : SubnetType) : bool :=
  match a, b with
  | PUBLIC, PUBLIC | PRIVATE_WITH_EGRESS, PRIVATE_WITH_EGRESS
  | PRIVATE_ISOLATED, PRIVATE_ISOLATED => true
  | _, _ => false
  end.

(** ** References held by a value *)

Fixpoint valueRefs (v : Value) : list NodeRef :=
  match v with
  | VRef r => [r]
  | VAttr r _ => [r]
  | VList items => flat_map valueRefs items
  | VObj fields => flat_map (fun kv => valueRefs (snd kv)) fields
  | VCall _ args => flat_map valueRefs args
  | VTemplate parts => flat_map valueRefs parts
  | _ => []
  end.

Definition propsRefs (p : Props) : list NodeRef :=
  flat_map (fun kv => valueRefs (snd kv)) p.

Definition peerRefs (p : Peer) : list NodeRef :=
  match p with
  | CidrIpv4 _ _ => []
  | SecurityGroupPeer sg => [sg]
  end.

Definition statementRefs (s : PolicyStatement) : list NodeRef :=
  flat_map valueRefs (resources s).

(** Every reference a node holds: in its parameters, in the sources of
    its security rules, in its policy statements and in its [dependsOn]. *)
Definition nodeRefs (n : ResourceNode) : list NodeRef :=
  propsRefs (parameters n)
  ++ flat_map (fun r => peerRefs (source r)) (rules n)
  ++ flat_map statementRefs (statements n)
  ++ map target (dependsOn n).

(** ** Lookups *)

Fixpoint lookup (key : string) (p : Props) : option Value :=
  match p with
  | [] => None
  | (k, v) :: rest => if String.eqb k key then Some v else lookup key rest
  end.

Definition findNode (g : Stack) (r : NodeRef) : option ResourceNode :=
  find (fun n => String.eqb (name n) r) (nodes g).

Definition nodesOfKind (g : Stack) (k : Kind) : list ResourceNode :=
  filter (fun n => Kind_eqb (kind n) k) (nodes g).

(** ** The builder monad

    A stack constructor runs against the stack under construction and
    either fails or returns a value and the extended stack. *)

Inductive BuildError :=
| DuplicateId (id : string)
| NoSuchConstruct (k : Kind) (r : NodeRef)
| NoGrantPrincipal (r : NodeRef)
| NoSuchNode (r : NodeRef).

Definition Build (A : Type) : Type := Stack -> BuildError + (A * Stack).

Definition ret {A} (a : A) : Build A := fun g => inr (a, g).

Definition bind {A B} (c : Build A) (k : A -> Build B) : Build B :=
  fun g => match c g with
           | inl e => inl e
           | inr (a, g') => k a g'
           end.

Definition fail {A} (e : BuildError) : Build A := fun _ => inl e.

Notation "x <- c ;; k" := (bind c (fun x => k))
  (at level 61, c at next level, right associativity).
Notation "c ;; k" := (bind c (fun _ => k))
  (at level 61, right associativity).

Definition withNodes (g : Stack) (l : list ResourceNode) : Stack :=
  {| stackId := stackId g; stackProps := stackProps g; nodes := l |}.

Definition dependencies (k : EdgeKind) (l : list NodeRef) : list Dependency :=
  map (fun r => {| edgeKind := k; target := r |}) l.

Definition mkNode (k : Kind) (id : string) (props : Props)
    (deps : list Dependency) : ResourceNode :=
  {| kind := k; name := id; parameters := props; rules := [];
     managedPolicies := []; statements := []; removalPolicy := None;
     dependsOn := deps |}.

(** [new K(this, id, props)] with the given dependency edges: construct
    ids are unique within the stack. *)
Definition declare (k : Kind) (id : string) (props : Props)
    (deps : list Dependency) : Build NodeRef :=
  fun g => match findNode g id with
           | Some _ => inl (DuplicateId id)
           | None => inr (id, withNodes g (nodes g ++ [mkNode k id props deps]))
           end.

(** [new K(this, id, props)]: the node depends on every construct its
    properties refer to. *)
Definition construct (k : Kind) (id : string) (props : Props) : Build NodeRef :=
  declare k id props (dependencies ParameterReference (propsRefs props)).

(** Rewrites the node of kind [k] called [r], when there is one. *)
Fixpoint rewriteNode (k : Kind) (r : NodeRef) (f : ResourceNode -> ResourceNode)
    (l : list ResourceNode) : option (list ResourceNode) :=
  match l with
  | [] => None
  | n :: rest =>
      if String.eqb (name n) r && Kind_eqb (kind n) k
      then Some (f n :: rest)
      else option_map (cons n) (rewriteNode k r f rest)
  end.

(** A mutator called on the construct [r] of kind [k]. *)
Definition mutate (k : Kind) (r : NodeRef)
    (f : ResourceNode -> ResourceNode) : Build unit :=
  fun g => match rewriteNode k r f (nodes g) with
           | Some l => inr (tt, withNodes g l)
           | None => inl (NoSuchConstruct k r)
           end.

(** ** The framework calls of the two constructors

    The provisioning framework is a dependency of the repository, not
    part of its sources: each of its calls is modelled by what it
    declares in the graph, and its enumeration members and factories are
    kept symbolic in the parameters. *)

Module Peer.
(** [Peer.anyIpv4()]: the range 0.0.0.0/0. *)
Definition anyIpv4 : Peer := CidrIpv4 0 0.
End Peer.

Module Port.
(** [Port.tcp(p)]. *)
Definition tcp (p : Z) : Port := {| portProtocol := TCP; portNumber := p |}.
End Port.

Module ManagedPolicy.
Definition fromAwsManagedPolicyName (n : string) : ManagedPolicy :=
  {| managedPolicyName := n |}.

Definition eqb (a b : ManagedPolicy) : bool :=
  String.eqb (managedPolicyName a) (managedPolicyName b).
End ManagedPolicy.

(** Modelled from the spec: [sg.addIngressRule(peer, connection,
    description)] attaches to the security group one SecurityRule
    (direction ingress, protocol, port, source, description); a rule
    whose source is a security group is a SecurityRule-reference edge to
    that group. *)
Definition addIngressRule (sg : NodeRef) (peer : Peer) (connection : Port)
    (descr : string) : Build unit :=
  mutate KSecurityGroup sg (fun n =>
    {| kind := kind n; name := name n; parameters := parameters n;
       rules := rules n ++ [{| direction := Ingress;
                               protocol := portProtocol connection;
                               port := portNumber connection;
                               source := peer;
                               description := descr |}];
       managedPolicies := managedPolicies n; statements := statements n;
       removalPolicy := removalPolicy n;
       dependsOn := dependsOn n
                    ++ dependencies SecurityRuleReference (peerRefs peer) |}).

(** Modelled from the spec: [role.addManagedPolicy(policy)] attaches the
    managed policy to the role; attaching a policy the role already has
    is a no-op. *)
Definition attach (policy : ManagedPolicy) (n : ResourceNode) : ResourceNode :=
  if existsb (ManagedPolicy.eqb policy) (managedPolicies n) then n
  else {| kind := kind n; name := name n; parameters := parameters n;
          rules := rules n;
          managedPolicies := managedPolicies n ++ [policy];
          statements := statements n; removalPolicy := removalPolicy n;
          dependsOn := dependsOn n |}.

Definition addManagedPolicy (role : NodeRef) (policy : ManagedPolicy) : Build unit :=
  mutate KRole role (attach policy).

(** [role.addToPolicy(statement)]: the role depends on the resources the
    statement names. *)
Definition addToPolicy (role : NodeRef) (s : PolicyStatement) : Build unit :=
  mutate KRole role (fun n =>
    {| kind := kind n; name := name n; parameters := parameters n;
       rules := rules n; managedPolicies := managedPolicies n;
       statements := statements n ++ [s];
       removalPolicy := removalPolicy n;
       dependsOn := dependsOn n
                    ++ dependencies PolicyReference (statementRefs s) |}).

(** [bucket.grantWrite(grantee)]: a statement on the role the grantee
    runs as, allowing the write actions (kept symbolic) on the bucket
    and its objects. *)
Definition grantWrite (bucket grantee : NodeRef) : Build unit :=
  fun g =>
    match option_map (fun n => lookup "role" (parameters n)) (findNode g grantee) with
    | Some (Some (VRef role)) =>
        addToPolicy role
          {| actions := ["s3:BucketWrite"];
             resources := [VAttr bucket "bucketArn";
                           VTemplate [VAttr bucket "bucketArn"; VStr "/*"]] |} g
    | _ => inl (NoGrantPrincipal grantee)
    end.

(** [resource.applyRemovalPolicy(policy)]. *)
Definition applyRemovalPolicy (k : Kind) (r : NodeRef) (p : RemovalPolicy) : Build unit :=
  mutate k r (fun n =>
    {| kind := kind n; name := name n; parameters := parameters n;
       rules := rules n; managedPolicies := managedPolicies n;
       statements := statements n; removalPolicy := Some p;
       dependsOn := dependsOn n |}).

(** [alb.addListener(id, props)]: a listener of the load balancer. *)
Definition addListener (alb : NodeRef) (id : string) (props : Props) : Build NodeRef :=
  mutate KApplicationLoadBalancer alb (fun n => n) ;;
  construct KApplicationListener id (("loadBalancer", VRef alb) :: props).

(** A mutator called on the construct [r], whatever its kind. *)
Definition amend (r : NodeRef) (f : ResourceNode -> ResourceNode) : Build unit :=
  fun g => match findNode g r with
           | Some n => mutate (kind n) r f g
           | None => inl (NoSuchNode r)
           end.

(** One more [dependsOn] edge of a node. *)
Definition addDependency (k : EdgeKind) (r : NodeRef) (n : ResourceNode) : ResourceNode :=
  {| kind := kind n; name := name n; parameters := parameters n;
     rules := rules n; managedPolicies := managedPolicies n;
     statements := statements n; removalPolicy := removalPolicy n;
     dependsOn := dependsOn n ++ dependencies k [r] |}.

Fixpoint forEach {A} (f : A -> Build unit) (l : list A) : Build unit :=
  match l with
  | [] => ret tt
  | x :: rest => f x ;; forEach f rest
  end.

(** The constructs given under [targets]. *)
Definition targetsOf (props : Props) : list NodeRef :=
  match lookup "targets" props with
  | Some v => valueRefs v
  | None => []
  end.

(** Modelled from the spec: the framework's [listener.addTargets(id,
    props)] is not part of the sources. Fleet membership and routing
    are separate edges: the call declares a target group with the
    properties other than [targets], the listener routes to the group
    (a Routing edge from the listener), and every construct under
    [targets] becomes a member of the group (a TargetMembership edge
    from the member); the group itself refers to neither. *)
Definition addTargets (listener : NodeRef) (id : string) (props : Props) : Build NodeRef :=
  group <- construct KApplicationTargetGroup id
             (filter (fun kv => negb (String.eqb (fst kv) "targets")) props) ;;
  mutate KApplicationListener listener (addDependency Routing group) ;;
  forEach (fun member => amend member (addDependency TargetMembership group))
          (targetsOf props) ;;
  ret group.

(** The secret a database takes its credentials from. *)
Definition credentialsSecret (props : Props) : option NodeRef :=
  match lookup "credentials" props with
  | Some (VCall factory [VRef secret]) =>
      if String.eqb factory "Credentials.fromSecret" then Some secret else None
  | _ => None
  end.

(** Modelled from the spec: the framework's [rds.DatabaseInstance] is
    not part of the sources. [new rds.DatabaseInstance(this, id, props)]
    declares the database, which depends on what its properties refer
    to; a database with credentials from a secret is attached to that
    secret, by an attachment declared under the secret that refers to
    the secret and to the database. *)
Definition databaseInstance (id : string) (props : Props) : Build NodeRef :=
  db <- construct KDatabaseInstance id props ;;
  match credentialsSecret props with
  | Some secret =>
      _ <- construct KSecretTargetAttachment (secret ++ "/Attachment")
             [ ("secret", VRef secret); ("target", VRef db) ] ;;
      ret db
  | None => ret db
  end.

(** The graph a constructor builds for the stack [id] with [props]. *)
Definition synth (id : string) (props : option StackProps)
    (constructor : Build unit) : BuildError + Stack :=
  match constructor {| stackId := id; stackProps := props; nodes := [] |} with
  | inl e => inl e
  | inr (_, g) => inr g
  end.

(** ** The web stack: [AWSstack] *)

Import Str.

(** The commands of the web fleet's bootstrap script. *)
Definition webCommands : list string :=
  [ "#!/bin/bash";
    "# 1. パッケージの更新";
    "yum update -y";
    "# 2. Apache HTTPサーバーのインストールと自動起動設定";
    "yum install -y httpd";
    "systemctl enable httpd";
    "systemctl start httpd";
    "# 3. " ++ q "Hello World" ++ " を返す単純なHTMLファイル作成";
    "echo " ++ q "<html><h1>Hello World</h1></html>" ++ " > /var/www/html/index.html";
    "# 4. (任意) パーミッションや所有者設定の整備";
    "chown apache:apache /var/www/html/index.html";
    "chmod 644 /var/www/html/index.html" ].

Definition AWSstack : Build unit :=
  (* 1. VPC *)
  vpc <- construct KVpc "MyAppVPC"
    [ ("cidr", VStr "10.0.0.0/16");
      ("maxAzs", VNum 2);
      ("natGateways", VNum 2);
      ("subnetConfiguration", VList
         [ VObj [ ("cidrMask", VNum 24);
                  ("name", VStr "PublicSubnet");
                  ("subnetType", VSubnetType PUBLIC) ];
           VObj [ ("cidrMask", VNum 24);
                  ("name", VStr "PrivateSubnet");
                  ("subnetType", VSubnetType PRIVATE_WITH_EGRESS) ] ]) ] ;;
  (* 2. security groups *)
  albSecurityGroup <- construct KSecurityGroup "ALBSecurityGroup"
    [ ("vpc", VRef vpc);
      ("allowAllOutbound", VBool true);
      ("description", VStr "Security group for ALB") ] ;;
  addIngressRule albSecurityGroup Peer.anyIpv4 (Port.tcp 80)
    "Allow HTTP from Internet" ;;
  ec2SecurityGroup <- construct KSecurityGroup "EC2SecurityGroup"
    [ ("vpc", VRef vpc);
      ("allowAllOutbound", VBool true);
      ("description", VStr "Security group for EC2 in private subnet") ] ;;
  addIngressRule ec2SecurityGroup (SecurityGroupPeer albSecurityGroup)
    (Port.tcp 80) "Allow HTTP from ALB" ;;
  rdsSecurityGroup <- construct KSecurityGroup "RDSSecurityGroup"
    [ ("vpc", VRef vpc);
      ("allowAllOutbound", VBool true);
      ("description", VStr "Security group for RDS in private subnet") ] ;;
  addIngressRule rdsSecurityGroup (SecurityGroupPeer ec2SecurityGroup)
    (Port.tcp 3306) "Allow MySQL access from EC2" ;;
  (* 3. the database secret *)
  dbSecret <- construct KSecret "DBSecret"
    [ ("generateSecretString", VObj
         [ ("secretStringTemplate",
            VCall "JSON.stringify" [VObj [("username", VStr "admin")]]);
           ("generateStringKey", VStr "password");
           ("excludePunctuation", VBool true);
           ("includeSpace", VBool false) ]) ] ;;
  (* 4. the database *)
  dbSubnetGroup <- construct KSubnetGroup "DBSubnetGroup"
    [ ("vpc", VRef vpc);
      ("description", VStr "Subnet group for RDS");
      ("subnetGroupName", VStr "PrivateSubnetGroup");
      ("vpcSubnets", VObj [("subnetType", VSubnetType PRIVATE_WITH_EGRESS)]);
      ("removalPolicy", VRemoval DESTROY) ] ;;
  dbInstance <- databaseInstance "MyRDSInstance"
    [ ("engine", VCall "DatabaseInstanceEngine.mysql"
         [VObj [("version", VEnum "MysqlEngineVersion.VER_8_0")]]);
      ("instanceType", VCall "InstanceType.of"
         [VEnum "InstanceClass.BURSTABLE3"; VEnum "InstanceSize.SMALL"]);
      ("vpc", VRef vpc);
      ("vpcSubnets", VObj [("subnetType", VSubnetType PRIVATE_WITH_EGRESS)]);
      ("credentials", VCall "Credentials.fromSecret" [VRef dbSecret]);
      ("multiAz", VBool true);
      ("allocatedStorage", VNum 20);
      ("maxAllocatedStorage", VNum 100);
      ("securityGroups", VList [VRef rdsSecurityGroup]);
      ("subnetGroup", VRef dbSubnetGroup);
      ("publiclyAccessible", VBool false);
      ("removalPolicy", VRemoval DESTROY);
      ("deletionProtection", VBool false);
      ("databaseName", VStr "wordpressdb") ] ;;
  (* 5. the load balancer *)
  alb <- construct KApplicationLoadBalancer "MyALB"
    [ ("vpc", VRef vpc);
      ("internetFacing", VBool true);
      ("securityGroup", VRef albSecurityGroup);
      ("loadBalancerName", VStr "MyWordPressALB") ] ;;
  (* 6. the role of the instances *)
  ec2Role <- construct KRole "EC2Role"
    [ ("assumedBy", VCall "ServicePrincipal" [VStr "ec2.amazonaws.com"]);
      ("description", VStr "Role for EC2 instances") ] ;;
  addManagedPolicy ec2Role
    (ManagedPolicy.fromAwsManagedPolicyName "AmazonSSMManagedInstanceCore") ;;
  (* 7. the fleet *)
  let userData := UserData.addCommands UserData.forLinux webCommands in
  asg <- construct KAutoScalingGroup "WordPressASG"
    [ ("vpc", VRef vpc);
      ("instanceType", VCall "InstanceType.of"
         [VEnum "InstanceClass.T3"; VEnum "InstanceSize.MICRO"]);
      ("machineImage", VCall "MachineImage.latestAmazonLinux" []);
      ("role", VRef ec2Role);
      ("securityGroup", VRef ec2SecurityGroup);
      ("desiredCapacity", VNum 2);
      ("minCapacity", VNum 2);
      ("maxCapacity", VNum 4);
      ("vpcSubnets", VObj [("subnetType", VSubnetType PRIVATE_WITH_EGRESS)]);
      ("userData", VUserData userData) ] ;;
  (* 8. listener and target group *)
  listener <- addListener alb "HTTPListener"
    [ ("port", VNum 80);
      ("open", VBool true) ] ;;
  _ <- addTargets listener "WordPressFleet"
    [ ("port", VNum 80);
      ("targets", VList [VRef asg]);
      ("healthCheck", VObj
         [ ("path", VStr "/");
           ("interval", VCall "Duration.seconds" [VNum 30]) ]) ] ;;
  (* 9. outputs *)
  _ <- construct KCfnOutput "LoadBalancerDNS"
    [ ("description", VStr "DNS Name of the ALB");
      ("value", VAttr alb "loadBalancerDnsName") ] ;;
  _ <- construct KCfnOutput "DBEndpoint"
    [ ("description", VStr "Endpoint of the RDS DB");
      ("value", VAttr dbInstance "dbInstanceEndpointAddress") ] ;;
  ret tt.

(** ** The logging stack: [Ec2LoggingStack] *)

(** The commands of the instance's bootstrap script; the lines from
    [cat <<EOF] to [EOF] write the configuration of the log agent. *)
Definition loggingCommands : list string :=
  [ "yum update -y";
    "yum install -y httpd amazon-cloudwatch-agent";
    "systemctl start httpd";
    "systemctl enable httpd";
    "echo " ++ q "<html><head><title>Hello</title></head><body><h1>Hello World</h1></body></html>" ++ " > /var/www/html/index.html";
    "cat <<EOF > /opt/aws/amazon-cloudwatch-agent/bin/config.json";
    "{";
    "  " ++ q "logs" ++ ": {";
    "    " ++ q "logs_collected" ++ ": {";
    "      " ++ q "files" ++ ": {";
    "        " ++ q "collect_list" ++ ": [";
    "          {";
    "            " ++ q "file_path" ++ ": " ++ q "/var/log/httpd/access_log" ++ ",";
    "            " ++ q "log_group_name" ++ ": " ++ q "/ec2/app/logs" ++ ",";
    "            " ++ q "log_stream_name" ++ ": " ++ q "{instance_id}/access_log" ++ ",";
    "            " ++ q "timestamp_format" ++ ": " ++ q "%d/%b/%Y:%H:%M:%S %z";
    "          },";
    "          {";
    "            " ++ q "file_path" ++ ": " ++ q "/var/log/httpd/error_log" ++ ",";
    "            " ++ q "log_group_name" ++ ": " ++ q "/ec2/app/logs" ++ ",";
    "            " ++ q "log_stream_name" ++ ": " ++ q "{instance_id}/error_log" ++ ",";
    "            " ++ q "timestamp_format" ++ ": " ++ q "%Y/%m/%d %H:%M:%S";
    "          }";
    "        ]";
    "      }";
    "    }";
    "  }";
    "}";
    "EOF";
    "/opt/aws/amazon-cloudwatch-agent/bin/amazon-cloudwatch-agent-ctl -a fetch-config -m ec2 -c file:/opt/aws/amazon-cloudwatch-agent/bin/config.json -s" ].

(** [dirname] is the directory of the module, [__dirname]. *)
Definition Ec2LoggingStack (dirname : string) : Build unit :=
  vpc <- construct KVpc "AppVPC"
    [ ("maxAzs", VNum 2);
      ("subnetConfiguration", VList
         [ VObj [ ("name", VStr "public");
                  ("subnetType", VSubnetType PUBLIC) ] ]) ] ;;
  ec2Role <- construct KRole "EC2Role"
    [ ("assumedBy", VCall "ServicePrincipal" [VStr "ec2.amazonaws.com"]) ] ;;
  addManagedPolicy ec2Role
    (ManagedPolicy.fromAwsManagedPolicyName "CloudWatchAgentServerPolicy") ;;
  addManagedPolicy ec2Role
    (ManagedPolicy.fromAwsManagedPolicyName "CloudWatchAgentServerPolicy") ;;
  logGroup <- construct KLogGroup "AppLogGroup"
    [ ("logGroupName", VStr "/ec2/app/logs");
      ("retention", VRetention ONE_WEEK) ] ;;
  securityGroup <- construct KSecurityGroup "WebSG"
    [ ("vpc", VRef vpc);
      ("allowAllOutbound", VBool true) ] ;;
  addIngressRule securityGroup Peer.anyIpv4 (Port.tcp 80) "Allow HTTP traffic" ;;
  addIngressRule securityGroup Peer.anyIpv4 (Port.tcp 22) "Allow SSH" ;;
  addIngressRule securityGroup Peer.anyIpv4 (Port.tcp 443) "Allow HTTPS traffic" ;;
  let userData := UserData.addCommands UserData.forLinux loggingCommands in
  instance <- construct KInstance "AppInstance"
    [ ("vpc", VRef vpc);
      ("instanceType", VCall "InstanceType" [VStr "t3.micro"]);
      ("machineImage", VCall "MachineImage.latestAmazonLinux2" []);
      ("role", VRef ec2Role);
      ("vpcSubnets", VObj [("subnetType", VSubnetType PUBLIC)]);
      ("associatePublicIpAddress", VBool true);
      ("userData", VUserData userData);
      ("securityGroup", VRef securityGroup) ] ;;
  bucket <- construct KBucket "LogStorageBucket"
    [ ("versioned", VBool true);
      ("removalPolicy", VRemoval DESTROY);
      ("autoDeleteObjects", VBool true);
      ("lifecycleRules", VList
         [ VObj [ ("expiration", VCall "Duration.days" [VNum 30]);
                  ("noncurrentVersionExpiration", VCall "Duration.days" [VNum 30]) ] ]) ] ;;
  lambdaRole <- construct KRole "LambdaRole"
    [ ("assumedBy", VCall "ServicePrincipal" [VStr "lambda.amazonaws.com"]) ] ;;
  addManagedPolicy lambdaRole
    (ManagedPolicy.fromAwsManagedPolicyName "service-role/AWSLambdaBasicExecutionRole") ;;
  addToPolicy lambdaRole
    {| actions := ["s3:PutObject"];
       resources := [VTemplate [VAttr bucket "bucketArn"; VStr "/*"]] |} ;;
  logProcessor <- construct KFunction "LogProcessor"
    [ ("runtime", VEnum "Runtime.PYTHON_3_9");
      ("handler", VStr "index.handler");
      ("code", VCall "Code.fromAsset"
         [VCall "path.join" [VStr dirname; VStr ".."; VStr "lambda"]]);
      ("timeout", VCall "Duration.seconds" [VNum 30]);
      ("role", VRef lambdaRole);
      ("environment", VObj [("BUCKET_NAME", VAttr bucket "bucketName")]) ] ;;
  grantWrite bucket logProcessor ;;
  _ <- construct KSubscriptionFilter "LogFilter"
    [ ("logGroup", VRef logGroup);
      ("destination", VCall "LambdaDestination" [VRef logProcessor]);
      ("filterPattern", VPattern FilterPattern.allEvents) ] ;;
  applyRemovalPolicy KLogGroup logGroup DESTROY.

(** The properties of the stack the application declares. *)
Definition tokyo : option StackProps :=
  Some {| env := Some {| region := Some "ap-northeast-1" |} |}.

(** [new Ec2LoggingStack(app, 'Ec2LoggingStack', ...)] on a new [App],
    as [bin/2.ts] runs it, and again the last lines of
    [lib/ec2_logging_stack.ts]. *)
Definition app (dirname : string) : BuildError + Stack :=
  synth "Ec2LoggingStack" tokyo (Ec2LoggingStack dirname).


(** The graphs the two constructors produce. *)
Inductive Produced : Stack -> Prop :=
| produced_web id props g :
    synth id props AWSstack = inr g -> Produced g
| produced_logging dirname id props g :
    synth id props (Ec2LoggingStack dirname) = inr g -> Produced g.

(** The nodes of the two graphs, in declaration order. *)
Definition webNodes : list ResourceNode :=
  Eval vm_compute in
    match synth EmptyString None AWSstack with
    | inr g => nodes g
    | inl _ => []
    end.

Definition loggingNodes : string -> list ResourceNode :=
  Eval cbv in
    fun dirname =>
      match synth EmptyString None (Ec2LoggingStack dirname) with
      | inr g => nodes g
      | inl _ => []
      end.

(** ** Reachability through security rules *)

(** A source of traffic: its IPv4 address and the security groups of the
    stack it is a member of. *)
Record Origin := { address : Z; memberOf : list NodeRef }.

Definition validIpv4 (a : Z) : Prop := (0 <= a < 2 ^ 32)%Z.

(** [a] lies in the range [base/mask]. *)
Definition inCidr (a base mask : Z) : bool :=
  (Z.shiftr a (32 - mask) =? Z.shiftr base (32 - mask))%Z.

Definition peerPermits (p : Peer) (o : Origin) : bool :=
  match p with
  | CidrIpv4 base mask => inCidr (address o) base mask
  | SecurityGroupPeer sg => existsb (String.eqb sg) (memberOf o)
  end.

Definition rulePermits (r : SecurityRule) (o : Origin)
    (proto : Protocol) (p : Z) : bool :=
  Direction_eqb (direction r) Ingress
  && Protocol_eqb (protocol r) proto
  && (port r =? p)%Z
  && peerPermits (source r) o.

(** The rules attached to the security group [sg]. *)
Definition ingressRules (g : Stack) (sg : NodeRef) : list SecurityRule :=
  match findNode g sg with
  | Some n => rules n
  | None => []
  end.

(** The security group [sg] lets traffic from [o] in on [proto]/[p]. *)
Definition permits (g : Stack) (sg : NodeRef) (o : Origin)
    (proto : Protocol) (p : Z) : bool :=
  existsb (fun r => rulePermits r o proto p) (ingressRules g sg).

(** A source outside the stack: a member of none of its groups. *)
Definition fromInternet (g : Stack) (o : Origin) : Prop :=
  forall sg, In sg (memberOf o) -> findNode g sg = None.

(** What a rule says, its description apart. *)
Definition ruleShape (r : SecurityRule) : Direction * Protocol * Z * Peer :=
  (direction r, protocol r, port r, source r).

(** The security groups attached to a resource. *)
Definition securityGroupsOf (n : ResourceNode) : list NodeRef :=
  match lookup "securityGroup" (parameters n) with
  | Some v => valueRefs v
  | None => []
  end
  ++ match lookup "securityGroups" (parameters n) with
     | Some v => valueRefs v
     | None => []
     end.

Definition isCompute (k : Kind) : bool :=
  match k with
  | KAutoScalingGroup | KInstance => true
  | _ => false
  end.

(** The least-privilege chain on port 80: the load balancer is open to
    every address, and compute is open to the load balancer only. *)
Definition albOpenHttp (g : Stack) : Prop :=
  forall lb, In lb (nodes g) -> kind lb = KApplicationLoadBalancer ->
    exists sg, securityGroupsOf lb = [sg] /\
      forall o, validIpv4 (address o) -> permits g sg o TCP 80 = true.

Definition computeHttpOnlyFromAlb (g : Stack) : Prop :=
  forall n sg o, In n (nodes g) -> isCompute (kind n) = true ->
    In sg (securityGroupsOf n) -> permits g sg o TCP 80 = true ->
    exists lb albsg, In lb (nodes g) /\ kind lb = KApplicationLoadBalancer /\
      In albsg (securityGroupsOf lb) /\ In albsg (memberOf o).

Definition httpChain (g : Stack) : Prop :=
  albOpenHttp g /\ computeHttpOnlyFromAlb g.

(** ** Dependency edges *)

Definition declared (g : Stack) (r : NodeRef) : Prop :=
  exists n, In n (nodes g) /\ name n = r.

Definition noDangling (g : Stack) : Prop :=
  forall n r, In n (nodes g) -> In r (nodeRefs n) -> declared g r.

(** [edge g a b]: the node [a] refers to [b], whatever the edge kind. *)
Definition edge (g : Stack) (a b : NodeRef) : Prop :=
  exists n, In n (nodes g) /\ name n = a /\ In b (nodeRefs n).

Inductive path (g : Stack) : NodeRef -> NodeRef -> Prop :=
| path_edge a b : edge g a b -> path g a b
| path_step a b c : edge g a b -> path g b c -> path g a c.

Definition acyclic (g : Stack) : Prop := forall a, ~ path g a a.

(** [dependsOnBy g a k b]: [a] has a [dependsOn] edge of kind [k] to [b]. *)
Definition dependsOnBy (g : Stack) (a : NodeRef) (k : EdgeKind) (b : NodeRef) : Prop :=
  exists n, findNode g a = Some n /\
    In {| edgeKind := k; target := b |} (dependsOn n).

(** The position of the first node called [r]. *)
Fixpoint rank (l : list ResourceNode) (r : NodeRef) : nat :=
  match l with
  | [] => 0
  | n :: rest => if String.eqb (name n) r then 0 else S (rank rest r)
  end.

(** Every node is new and refers to nodes declared before it only,
    [seen] being the names declared so far. *)
Fixpoint backward (seen : list NodeRef) (l : list ResourceNode) : bool :=
  match l with
  | [] => true
  | n :: rest =>
      forallb (fun r => existsb (String.eqb r) seen) (nodeRefs n)
      && negb (existsb (String.eqb (name n)) seen)
      && backward (name n :: seen) rest
  end.

(** A dependency order of the nodes: the target groups, which refer to
    nothing, then the other nodes as declared. *)
Definition dependencyOrder (l : list ResourceNode) : list ResourceNode :=
  filter (fun n => Kind_eqb (kind n) KApplicationTargetGroup) l
  ++ filter (fun n => negb (Kind_eqb (kind n) KApplicationTargetGroup)) l.

(** The graph with its nodes in dependency order. *)
Definition ordered (g : Stack) : Stack :=
  withNodes g (dependencyOrder (nodes g)).

(** The strings of a list are pairwise different. *)
Fixpoint distinct (l : list string) : bool :=
  match l with
  | [] => true
  | x :: rest => negb (existsb (String.eqb x) rest) && distinct rest
  end.

(** ** Subnets *)

Inductive Route := InternetGateway | NatGateway.

(** Modelled from the spec: the framework's [SubnetType] enumeration is
    not part of the sources. A public subnet is routed to and from the
    internet through the internet gateway; a private subnet with egress
    reaches the internet through a NAT gateway and has no inbound path;
    an isolated subnet has neither. *)
Definition egressPath (t : SubnetType) : option Route :=
  match t with
  | PUBLIC => Some InternetGateway
  | PRIVATE_WITH_EGRESS => Some NatGateway
  | PRIVATE_ISOLATED => None
  end.

Definition inboundPath (t : SubnetType) : option Route :=
  match t with
  | PUBLIC => Some InternetGateway
  | PRIVATE_WITH_EGRESS | PRIVATE_ISOLATED => None
  end.

Definition isPrivate (t : SubnetType) : bool :=
  match t with
  | PUBLIC => false
  | PRIVATE_WITH_EGRESS | PRIVATE_ISOLATED => true
  end.

(** The subnet groups a network declares: name and type. *)
Definition subnetGroup (v : Value) : list (string * SubnetType) :=
  match v with
  | VObj fields =>
      match lookup "name" fields, lookup "subnetType" fields with
      | Some (VStr n), Some (VSubnetType t) => [(n, t)]
      | _, _ => []
      end
  | _ => []
  end.

Definition subnetConfiguration (vpc : ResourceNode) : list (string * SubnetType) :=
  match lookup "subnetConfiguration" (parameters vpc) with
  | Some (VList groups) => flat_map subnetGroup groups
  | _ => []
  end.

(** No subnet group is both public and private. *)
Definition separated (cfg : list (string * SubnetType)) : Prop :=
  forall n t t', In (n, t) cfg -> In (n, t') cfg -> isPrivate t = isPrivate t'.

(** The subnet type a resource is placed in. *)
Definition placement (n : ResourceNode) : option SubnetType :=
  match lookup "vpcSubnets" (parameters n) with
  | Some (VObj fields) =>
      match lookup "subnetType" fields with
      | Some (VSubnetType t) => Some t
      | _ => None
      end
  | _ => None
  end.

(** The network of a resource. *)
Definition vpcOf (g : Stack) (n : ResourceNode) : option ResourceNode :=
  match lookup "vpc" (parameters n) with
  | Some (VRef r) => findNode g r
  | _ => None
  end.

Definition natGateways (vpc : ResourceNode) : Z :=
  match lookup "natGateways" (parameters vpc) with
  | Some (VNum k) => k
  | _ => 0
  end.

(** ** Logging *)

(** The log group names of the agent configuration a script writes: the
    values of its [log_group_name] entries. *)
Definition agentLogGroupNames (script : list string) : list string :=
  flat_map
    (fun line =>
       match after (q "log_group_name" ++ ": " ++ dq) line with
       | Some rest =>
           match before (ascii_of_nat 34) rest with
           | Some v => [v]
           | None => []
           end
       | None => []
       end)
    script.

Definition userDataOf (n : ResourceNode) : option UserData :=
  match lookup "userData" (parameters n) with
  | Some (VUserData u) => Some u
  | _ => None
  end.

(** ** Bootstrap scripts *)

(** The file a line [cat <<EOF > file] writes. *)
Definition heredocTarget (line : string) : option string :=
  if String.prefix "cat <<EOF > " line
  then after "cat <<EOF > " line
  else None.

(** The lines up to the first line [EOF], and the lines after it. *)
Fixpoint untilEOF (l : list string) : option (list string * list string) :=
  match l with
  | [] => None
  | x :: rest =>
      if String.eqb x "EOF" then Some ([], rest)
      else match untilEOF rest with
           | Some (body, later) => Some (x :: body, later)
           | None => None
           end
  end.

(** The first file-write block of a script: the file it writes, its
    body, and the commands after its end. *)
Fixpoint heredoc (l : list string) : option (string * list string * list string) :=
  match l with
  | [] => None
  | x :: rest =>
      match heredocTarget x with
      | Some file =>
          match untilEOF rest with
          | Some (body, later) => Some (file, body, later)
          | None => None
          end
      | None => heredoc rest
      end
  end.

(** The configuration file a command hands to the log agent with
    [-c file:...]. *)
Definition fetchedConfig (line : string) : list string :=
  match after "-c file:" line with
  | Some rest =>
      match before " "%char rest with
      | Some file => [file]
      | None => [rest]
      end
  | None => []
  end.

(** The braces and square brackets of a text are properly nested, those
    inside double quotes apart, and every double quote is closed. *)
Fixpoint nested (open : list ascii) (quoted : bool) (s : string) : bool :=
  match s with
  | EmptyString =>
      match open with
      | [] => negb quoted
      | _ :: _ => false
      end
  | String c rest =>
      if Ascii.eqb c (ascii_of_nat 34) then nested open (negb quoted) rest
      else if quoted then nested open true rest
      else if Ascii.eqb c "{"%char || Ascii.eqb c "["%char
           then nested (c :: open) false rest
      else if Ascii.eqb c "}"%char
           then match open with
                | o :: open' => Ascii.eqb o "{"%char && nested open' false rest
                | [] => false
                end
      else if Ascii.eqb c "]"%char
           then match open with
                | o :: open' => Ascii.eqb o "["%char && nested open' false rest
                | [] => false
                end
      else nested open false rest
  end.

(** Every line that passes [q] comes after a line that passes [p],
    [seen] telling whether one has come already. *)
Fixpoint guarded (p q : string -> bool) (seen : bool) (l : list string) : bool :=
  match l with
  | [] => true
  | x :: rest => (negb (q x) || seen) && guarded p q (seen || p x) rest
  end.

(** ** Identity *)

(** The service a resource of kind [k] runs as. *)
Definition servicePrincipal (k : Kind) : string :=
  match k with
  | KFunction => "lambda.amazonaws.com"
  | _ => "ec2.amazonaws.com"
  end.

(** ** Removal *)

(** What happens to a resource when it leaves the stack: the policy
    applied to the construct, else the one given in its properties. *)
Definition effectiveRemoval (n : ResourceNode) : option RemovalPolicy :=
  match removalPolicy n with
  | Some p => Some p
  | None =>
      match lookup "removalPolicy" (parameters n) with
      | Some (VRemoval p) => Some p
      | _ => None
      end
  end.

(** The resources that hold data or are named by it. *)
Definition isStateful (k : Kind) : bool :=
  match k with
  | KDatabaseInstance | KSubnetGroup | KBucket | KLogGroup => true
  | _ => false
  end.

(** * Properties *)

(** ** Splitting and joining *)

Section SplitJoin.

Variable sep : ascii.

Lemma split_line s : mem sep s = false -> split sep s = [s].
Proof.
  induction s as [|c s IH]; simpl; intros H; [reflexivity|].
  apply orb_false_elim in H as [Hc Hs].
  now rewrite Hc, (IH Hs).
Qed.

Lemma split_app_sep s t :
  mem sep s = false -> split sep (s ++ String sep t) = s :: split sep t.
Proof.
  induction s as [|c s IH]; simpl; intros H.
  - now rewrite Ascii.eqb_refl.
  - apply orb_false_elim in H as [Hc Hs].
    now rewrite Hc, (IH Hs).
Qed.

Lemma split_join l :
  l <> [] -> Forall (fun c => mem sep c = false) l ->
  split sep (join (String sep EmptyString) l) = l.
Proof.
  induction l as [|x l IH]; intros Hne Hall; [contradiction|].
  inversion Hall as [|? ? Hx Hl]; subst.
  destruct l as [|y l].
  - simpl. now apply split_line.
  - change (join (String sep EmptyString) (x :: y :: l))
      with (x ++ String sep (join (String sep EmptyString) (y :: l))).
    rewrite split_app_sep by assumption.
    f_equal. apply IH; [discriminate | assumption].
Qed.

End SplitJoin.

(** ** Security rules *)

Lemma existsb_eqb_In x l : existsb (String.eqb x) l = true <-> In x l.
Proof.
  rewrite existsb_exists. split.
  - intros (y & Hy & E). apply String.eqb_eq in E. now subst.
  - intros H. exists x. split; [assumption | apply String.eqb_refl].
Qed.

Lemma Kind_eqb_eq a b : Kind_eqb a b = true <-> a = b.
Proof. destruct a, b; simpl; split; intros H; congruence. Qed.

Lemma Protocol_eqb_eq a b : Protocol_eqb a b = true <-> a = b.
Proof. destruct a, b; simpl; split; intros H; congruence. Qed.

Lemma Direction_eqb_eq a b : Direction_eqb a b = true <-> a = b.
Proof. destruct a, b; simpl; split; intros H; congruence. Qed.

Lemma anyIpv4_permits o :
  validIpv4 (address o) -> peerPermits Peer.anyIpv4 o = true.
Proof.
  unfold validIpv4, Peer.anyIpv4, peerPermits, inCidr. intros H.
  apply Z.eqb_eq.
  rewrite !Z.shiftr_div_pow2 by lia.
  change (32 - 0)%Z with 32%Z.
  rewrite Z.div_small by lia. reflexivity.
Qed.

Lemma groupPeer_permits sg o :
  peerPermits (SecurityGroupPeer sg) o = true <-> In sg (memberOf o).
Proof. apply existsb_eqb_In. Qed.

Lemma rulePermits_spec r o proto p :
  rulePermits r o proto p = true <->
  direction r = Ingress /\ protocol r = proto /\ port r = p
  /\ peerPermits (source r) o = true.
Proof.
  unfold rulePermits.
  rewrite !andb_true_iff, Direction_eqb_eq, Protocol_eqb_eq, Z.eqb_eq.
  tauto.
Qed.

Lemma permits_spec g sg o proto p :
  permits g sg o proto p = true <->
  exists r, In r (ingressRules g sg) /\ direction r = Ingress
    /\ protocol r = proto /\ port r = p /\ peerPermits (source r) o = true.
Proof.
  unfold permits. rewrite existsb_exists.
  split; intros (r & Hin & H); exists r; (split; [assumption|]);
    now apply rulePermits_spec.
Qed.

(** ** Declaration order *)

Lemma rank_lt pre post r :
  In r (map name pre) -> rank (pre ++ post) r < List.length pre.
Proof.
  induction pre as [|n pre IH]; simpl; [contradiction|].
  intros [E | H].
  - subst. rewrite String.eqb_refl. lia.
  - destruct (String.eqb (name n) r); [lia|].
    specialize (IH H). lia.
Qed.

Lemma rank_eq pre n post :
  ~ In (name n) (map name pre) -> rank (pre ++ n :: post) (name n) = List.length pre.
Proof.
  induction pre as [|m pre IH]; simpl; intros H.
  - now rewrite String.eqb_refl.
  - destruct (String.eqb (name m) (name n)) eqn:E.
    + apply String.eqb_eq in E. tauto.
    + rewrite IH by tauto. reflexivity.
Qed.

Lemma backward_split seen pre n post :
  backward seen (pre ++ n :: post) = true ->
  (forall r, In r (nodeRefs n) -> In r seen \/ In r (map name pre))
  /\ ~ In (name n) seen /\ ~ In (name n) (map name pre).
Proof.
  revert seen. induction pre as [|m pre IH]; simpl; intros seen H.
  - apply andb_true_iff in H as [H _].
    apply andb_true_iff in H as [Hrefs Hnew].
    rewrite forallb_forall in Hrefs.
    apply negb_true_iff in Hnew.
    repeat split.
    + intros r Hr. left. apply existsb_eqb_In. now apply Hrefs.
    + intros Hin. apply existsb_eqb_In in Hin. congruence.
    + tauto.
  - apply andb_true_iff in H as [_ H].
    destruct (IH _ H) as (Hrefs & Hseen & Hpre). simpl in *.
    repeat split.
    + intros r Hr. destruct (Hrefs r Hr) as [[E | Hs] | Hp]; tauto.
    + tauto.
    + intros [E | Hin]; [|tauto]. apply Hseen. left. exact E.
Qed.

Section Backward.

Variable g : Stack.
Hypothesis ordered : backward [] (nodes g) = true.

Lemma backward_edge a b :
  edge g a b -> rank (nodes g) b < rank (nodes g) a.
Proof.
  intros (n & Hin & <- & Hb).
  destruct (in_split _ _ Hin) as (pre & post & E).
  rewrite E in ordered |- *.
  destruct (backward_split _ _ _ _ ordered) as (Hrefs & _ & Hnew).
  rewrite (rank_eq _ _ _ Hnew).
  destruct (Hrefs b Hb) as [[] | Hp].
  now apply rank_lt.
Qed.

Lemma backward_path a b :
  path g a b -> rank (nodes g) b < rank (nodes g) a.
Proof.
  induction 1 as [a b He | a b c He _ IH].
  - now apply backward_edge.
  - apply backward_edge in He. lia.
Qed.

Lemma backward_acyclic : acyclic g.
Proof. intros a Hp. apply backward_path in Hp. lia. Qed.

Lemma backward_noDangling : noDangling g.
Proof.
  intros n r Hin Hr.
  destruct (in_split _ _ Hin) as (pre & post & E).
  rewrite E in ordered.
  destruct (backward_split _ _ _ _ ordered) as (Hrefs & _ & _).
  destruct (Hrefs r Hr) as [[] | Hp].
  apply in_map_iff in Hp as (m & Hm & Hmin).
  exists m. split; [|assumption].
  rewrite E. apply in_or_app. now left.
Qed.

End Backward.

(** ** Mutators *)

Lemma attach_idempotent p n : attach p (attach p n) = attach p n.
Proof.
  unfold attach.
  destruct (existsb (ManagedPolicy.eqb p) (managedPolicies n)) eqn:E.
  - now rewrite E.
  - simpl. rewrite existsb_app. simpl.
    unfold ManagedPolicy.eqb at 2. rewrite String.eqb_refl.
    now rewrite orb_true_r.
Qed.

Lemma attach_name p n : name (attach p n) = name n.
Proof. unfold attach. now destruct (existsb _ _). Qed.

Lemma attach_kind p n : kind (attach p n) = kind n.
Proof. unfold attach. now destruct (existsb _ _). Qed.

Lemma rewriteNode_twice k r f l l' :
  (forall n, name (f n) = name n) ->
  (forall n, kind (f n) = kind n) ->
  (forall n, f (f n) = f n) ->
  rewriteNode k r f l = Some l' -> rewriteNode k r f l' = Some l'.
Proof.
  intros Hname Hkind Hidem. revert l'.
  induction l as [|n l IH]; simpl; intros l' H; [discriminate|].
  destruct (String.eqb (name n) r && Kind_eqb (kind n) k) eqn:E.
  - injection H as <-. simpl. now rewrite Hname, Hkind, E, Hidem.
  - destruct (rewriteNode k r f l) as [l0|]; [|discriminate].
    injection H as <-. simpl. now rewrite E, (IH l0 eq_refl).
Qed.

(** ** The graphs of the two constructors *)

Lemma synth_AWSstack id props :
  synth id props AWSstack
  = inr {| stackId := id; stackProps := props; nodes := webNodes |}.
Proof. reflexivity. Qed.

Lemma synth_Ec2LoggingStack dirname id props :
  synth id props (Ec2LoggingStack dirname)
  = inr {| stackId := id; stackProps := props; nodes := loggingNodes dirname |}.
Proof. reflexivity. Qed.

Lemma Produced_inv g :
  Produced g ->
  (exists id props,
      g = {| stackId := id; stackProps := props; nodes := webNodes |})
  \/ (exists dirname id props,
         g = {| stackId := id; stackProps := props;
                nodes := loggingNodes dirname |}).
Proof.
  intros [id props g' H | dirname id props g' H].
  - rewrite synth_AWSstack in H. injection H as <-. left. eauto.
  - rewrite synth_Ec2LoggingStack in H. injection H as <-. right. eauto.
Qed.

(** ** The bootstrap script *)

(** C6, as the code has it. For every ordered list of command lines
    (strings holding no line feed) given to the bootstrap script
    generator, splitting the generated script blob on line boundaries
    yields the interpreter line followed by the input command lines in
    exactly their input order: nothing is reordered, dropped or
    interpreted. *)
Theorem blobLines_render (commands : list string) :
  Forall (fun c => mem LF c = false) commands ->
  UserData.blobLines
    (UserData.render (UserData.addCommands UserData.forLinux commands))
  = UserData.shebang :: commands.
Proof.
  intros Hlines.
  unfold UserData.blobLines, UserData.render, UserData.addCommands,
    UserData.forLinux.
  cbn [lines app].
  apply (split_join LF (UserData.shebang :: commands)); [discriminate|].
  constructor; [reflexivity | assumption].
Qed.

(** The script of the logging stack, with its nested file-write block,
    comes back line by line after the interpreter line. *)
Lemma blobLines_render_logging :
  Forall (fun c => mem LF c = false) loggingCommands
  /\ UserData.blobLines
       (UserData.render (UserData.addCommands UserData.forLinux loggingCommands))
     = UserData.shebang :: loggingCommands.
Proof.
  assert (Hlines : Forall (fun c => mem LF c = false) loggingCommands)
    by (repeat constructor).
  split; [exact Hlines|].
  exact (blobLines_render loggingCommands Hlines).
Defined.

(** C6, as stated, fails: the lines of the blob of the logging stack's
    script are not its command lines, the blob having one line more. *)
Lemma blobLines_render_not_input :
  UserData.blobLines
    (UserData.render (UserData.addCommands UserData.forLinux loggingCommands))
  <> loggingCommands.
Proof.
  intros H. apply (f_equal (@List.length string)) in H.
  vm_compute in H. discriminate H.
Qed.

(** ** Managed policies *)

(** C8. Attaching a managed policy to a role twice is the same as
    attaching it once, whatever the stack; and the role of the logging
    stack, to which CloudWatchAgentServerPolicy is attached twice, holds
    that one policy once. *)
Theorem addManagedPolicy_twice :
  (forall role policy g,
      (addManagedPolicy role policy ;; addManagedPolicy role policy) g
      = addManagedPolicy role policy g)
  /\ (forall dirname id props,
         exists g r,
           synth id props (Ec2LoggingStack dirname) = inr g
           /\ findNode g "EC2Role" = Some r
           /\ kind r = KRole
           /\ managedPolicies r
              = [ManagedPolicy.fromAwsManagedPolicyName
                   "CloudWatchAgentServerPolicy"]).
Proof.
  split.
  - intros role policy g.
    unfold bind, addManagedPolicy, mutate.
    destruct (rewriteNode KRole role (attach policy) (nodes g)) as [l|] eqn:E;
      [|reflexivity].
    simpl.
    rewrite (rewriteNode_twice _ _ _ _ _
               (attach_name policy) (attach_kind policy)
               (attach_idempotent policy) E).
    reflexivity.
  - intros dirname id props.
    eexists. eexists.
    split; [apply synth_Ec2LoggingStack|].
    split; [reflexivity|].
    split; reflexivity.
Qed.

(** ** Logging *)

(** C5. The log group of the logging stack is retained for one week, 7
    days, and the pattern of the subscription filter attached to it
    matches every log event. *)
Theorem log_retention_and_filter (dirname id : string)
    (props : option StackProps) :
  exists g filter lg r pat,
    synth id props (Ec2LoggingStack dirname) = inr g
    /\ nodesOfKind g KSubscriptionFilter = [filter]
    /\ nodesOfKind g KLogGroup = [lg]
    /\ lookup "logGroup" (parameters filter) = Some (VRef (name lg))
    /\ lookup "retention" (parameters lg) = Some (VRetention r)
    /\ retentionDays r = 7%Z
    /\ lookup "filterPattern" (parameters filter) = Some (VPattern pat)
    /\ forall message, FilterPattern.matches pat message = true.
Proof.
  do 5 eexists.
  split; [apply synth_Ec2LoggingStack|].
  split; [reflexivity|].
  split; [reflexivity|].
  split; [reflexivity|].
  split; [reflexivity|].
  split; [reflexivity|].
  split; [reflexivity|].
  intros message. reflexivity.
Qed.

(** C10. The log group name written into the agent configuration of the
    bootstrap script, in both entries of its collect list, is the
    [logGroupName] of the log group the subscription filter is attached
    to. *)
Theorem agent_log_group_consistent (dirname id : string)
    (props : option StackProps) :
  exists g inst u filter lg lgNode groupName,
    synth id props (Ec2LoggingStack dirname) = inr g
    /\ nodesOfKind g KInstance = [inst]
    /\ userDataOf inst = Some u
    /\ nodesOfKind g KSubscriptionFilter = [filter]
    /\ lookup "logGroup" (parameters filter) = Some (VRef lg)
    /\ findNode g lg = Some lgNode
    /\ kind lgNode = KLogGroup
    /\ lookup "logGroupName" (parameters lgNode) = Some (VStr groupName)
    /\ groupName = "/ec2/app/logs"
    /\ agentLogGroupNames (lines u) = [groupName; groupName].
Proof.
  do 7 eexists.
  split; [apply synth_Ec2LoggingStack|].
  do 8 (split; [reflexivity|]).
  reflexivity.
Qed.

(** C9. The security group of the instance of the logging stack has
    exactly three ingress rules, letting TCP in from any IPv4 address on
    port 80, port 22 and port 443. *)
Theorem logging_instance_ingress (dirname id : string)
    (props : option StackProps) :
  exists g inst sg,
    synth id props (Ec2LoggingStack dirname) = inr g
    /\ nodesOfKind g KInstance = [inst]
    /\ securityGroupsOf inst = [sg]
    /\ map ruleShape (ingressRules g sg)
       = [ (Ingress, TCP, 80%Z, Peer.anyIpv4);
           (Ingress, TCP, 22%Z, Peer.anyIpv4);
           (Ingress, TCP, 443%Z, Peer.anyIpv4) ]
    /\ forall o, validIpv4 (address o) ->
         permits g sg o TCP 80 = true
         /\ permits g sg o TCP 22 = true
         /\ permits g sg o TCP 443 = true.
Proof.
  do 3 eexists.
  split; [apply synth_Ec2LoggingStack|].
  do 3 (split; [reflexivity|]).
  intros o Ho.
  pose proof (anyIpv4_permits o Ho) as Hany.
  repeat split; apply permits_spec.
  - eexists. split; [simpl; left; reflexivity|]. now repeat split.
  - eexists. split; [simpl; right; left; reflexivity|]. now repeat split.
  - eexists. split; [simpl; right; right; left; reflexivity|]. now repeat split.
Qed.

(** An address of the open internet gets in on the three ports. *)
Lemma logging_instance_ingress_open :
  let o := {| address := 16909060; memberOf := [] |} in
  validIpv4 (address o)
  /\ exists g sg,
       synth "Ec2LoggingStack" tokyo (Ec2LoggingStack "/app/lib") = inr g
       /\ permits g sg o TCP 80 = true
       /\ permits g sg o TCP 22 = true
       /\ permits g sg o TCP 443 = true.
Proof.
  intros o.
  assert (Ho : validIpv4 (address o)) by (unfold validIpv4; simpl; lia).
  split; [exact Ho|].
  destruct (logging_instance_ingress "/app/lib" "Ec2LoggingStack" tokyo)
    as (g & inst & sg & Hg & _ & _ & _ & Hopen).
  exists g, sg. split; [exact Hg|]. exact (Hopen o Ho).
Defined.

(** ** Least privilege *)

(** Case analysis on a node [H : In n l] of a graph, keeping the nodes
    that pass the test [K]. *)
Ltac each_node H K :=
  simpl in H;
  repeat (destruct H as [<- | H]; [try (simpl in K; discriminate K)|]);
  try contradiction.

(** C1. In every graph the builder produces, the security group of the
    database has one ingress rule, TCP on port 3306, whose source is
    the security group of the compute fleet and no address range: the
    only traffic the database lets in comes from members of the fleet's
    group. *)
Theorem database_ingress_from_fleet_only (g : Stack) (db : ResourceNode) :
  Produced g ->
  In db (nodes g) ->
  kind db = KDatabaseInstance ->
  exists dbsg fleet fleetsg,
    securityGroupsOf db = [dbsg]
    /\ nodesOfKind g KAutoScalingGroup = [fleet]
    /\ securityGroupsOf fleet = [fleetsg]
    /\ map ruleShape (ingressRules g dbsg)
       = [(Ingress, TCP, 3306%Z, SecurityGroupPeer fleetsg)]
    /\ forall o proto p,
         permits g dbsg o proto p = true ->
         proto = TCP /\ p = 3306%Z /\ In fleetsg (memberOf o).
Proof.
  intros Hg Hdb Hkind.
  destruct (Produced_inv g Hg) as [(id & props & ->) | (dirname & id & props & ->)].
  - unfold nodes, webNodes in Hdb. each_node Hdb Hkind.
    do 3 eexists.
    do 4 (split; [reflexivity|]).
    intros o proto p Hp.
    apply permits_spec in Hp as (r & Hr & _ & Hproto & Hport & Hpeer).
    simpl in Hr. destruct Hr as [<- | []].
    cbn [protocol port source] in Hproto, Hport, Hpeer.
    apply groupPeer_permits in Hpeer. auto.
  - unfold nodes, loggingNodes in Hdb. each_node Hdb Hkind.
Qed.

(** The database of the web stack and what its security group lets in. *)
Lemma database_ingress_from_fleet_only_web :
  let g := {| stackId := "AWSstack"; stackProps := None; nodes := webNodes |} in
  exists db,
    Produced g /\ In db (nodes g) /\ kind db = KDatabaseInstance
    /\ exists dbsg fleet fleetsg,
         securityGroupsOf db = [dbsg]
         /\ nodesOfKind g KAutoScalingGroup = [fleet]
         /\ securityGroupsOf fleet = [fleetsg]
         /\ map ruleShape (ingressRules g dbsg)
            = [(Ingress, TCP, 3306%Z, SecurityGroupPeer fleetsg)]
         /\ forall o proto p,
              permits g dbsg o proto p = true ->
              proto = TCP /\ p = 3306%Z /\ In fleetsg (memberOf o).
Proof.
  intros g.
  destruct (find (fun n => Kind_eqb (kind n) KDatabaseInstance) (nodes g))
    as [db|] eqn:E; [|discriminate E].
  apply find_some in E as [Hin Hk]. apply Kind_eqb_eq in Hk.
  assert (Hg : Produced g)
    by (apply (produced_web "AWSstack" None); reflexivity).
  exists db.
  split; [exact Hg|]. split; [exact Hin|]. split; [exact Hk|].
  exact (database_ingress_from_fleet_only g db Hg Hin Hk).
Defined.

Lemma nodesOfKind_In g k n :
  In n (nodesOfKind g k) -> In n (nodes g) /\ kind n = k.
Proof.
  unfold nodesOfKind. rewrite filter_In, Kind_eqb_eq. tauto.
Qed.

(** C2, as the code has it. Every graph the web constructor produces
    has one load balancer and one compute fleet; the security group of
    the load balancer lets TCP in on port 80 from any IPv4 address, and
    the security group of the fleet lets TCP in on port 80 from the
    members of the load balancer's group and from no other source. The
    graph of the logging constructor has no load balancer, and the
    security group of its one instance lets TCP in on port 80 from any
    IPv4 address. *)
Theorem http_chain_web_only :
  (forall id props,
      exists g lb albsg fleet fleetsg,
        synth id props AWSstack = inr g
        /\ httpChain g
        /\ nodesOfKind g KApplicationLoadBalancer = [lb]
        /\ securityGroupsOf lb = [albsg]
        /\ filter (fun n => isCompute (kind n)) (nodes g) = [fleet]
        /\ securityGroupsOf fleet = [fleetsg]
        /\ map ruleShape (ingressRules g albsg)
           = [(Ingress, TCP, 80%Z, Peer.anyIpv4)]
        /\ map ruleShape (ingressRules g fleetsg)
           = [(Ingress, TCP, 80%Z, SecurityGroupPeer albsg)]
        /\ (forall o, validIpv4 (address o) ->
              permits g albsg o TCP 80 = true)
        /\ (forall o, permits g fleetsg o TCP 80 = true <->
                      In albsg (memberOf o)))
  /\ (forall dirname id props,
         exists g inst sg,
           synth id props (Ec2LoggingStack dirname) = inr g
           /\ nodesOfKind g KApplicationLoadBalancer = []
           /\ filter (fun n => isCompute (kind n)) (nodes g) = [inst]
           /\ securityGroupsOf inst = [sg]
           /\ forall o, validIpv4 (address o) ->
                permits g sg o TCP 80 = true).
Proof.
  split.
  - intros id props. do 5 eexists.
    split; [apply synth_AWSstack|].
    assert (Hfleet : forall o,
               permits {| stackId := id; stackProps := props; nodes := webNodes |}
                 "EC2SecurityGroup" o TCP 80 = true
               <-> In "ALBSecurityGroup" (memberOf o)).
    { intros o. rewrite permits_spec. split.
      - intros (r & Hr & _ & _ & _ & Hpeer).
        simpl in Hr. destruct Hr as [<- | []].
        cbn [source] in Hpeer. now apply groupPeer_permits.
      - intros Hm. eexists. split; [simpl; left; reflexivity|].
        repeat split. cbn [source]. now apply groupPeer_permits. }
    assert (Halb : forall o, validIpv4 (address o) ->
               permits {| stackId := id; stackProps := props; nodes := webNodes |}
                 "ALBSecurityGroup" o TCP 80 = true).
    { intros o Ho. apply permits_spec.
      eexists. split; [simpl; left; reflexivity|].
      repeat split. now apply anyIpv4_permits. }
    split.
    { split.
      + intros lb Hin Hk. unfold nodes, webNodes in Hin. each_node Hin Hk.
        eexists. split; [reflexivity | exact Halb].
      + intros n sg o Hin Hk Hsg Hp.
        unfold nodes, webNodes in Hin. each_node Hin Hk.
        simpl in Hsg. destruct Hsg as [<- | []].
        apply Hfleet in Hp.
        match goal with
        | |- exists lb albsg, In lb (nodes ?g) /\ _ =>
            assert (Hlb : exists lb,
                       In lb (nodesOfKind g KApplicationLoadBalancer)
                       /\ In "ALBSecurityGroup" (securityGroupsOf lb))
              by (eexists; split;
                  [simpl; left; reflexivity | simpl; left; reflexivity])
        end.
        destruct Hlb as (lb & Hlb & Hlbsg).
        apply nodesOfKind_In in Hlb as [Hlb Hlbk].
        exists lb, "ALBSecurityGroup". auto. }
    do 6 (split; [reflexivity|]).
    split; [exact Halb | exact Hfleet].
  - intros dirname id props. do 3 eexists.
    split; [apply synth_Ec2LoggingStack|].
    do 3 (split; [reflexivity|]).
    intros o Ho. apply permits_spec.
    eexists. split; [simpl; left; reflexivity|].
    repeat split. now apply anyIpv4_permits.
Qed.

(** On the web stack an address of the internet gets in at the load
    balancer and not at the fleet, and a member of the load balancer's
    group gets in at the fleet; on the logging stack the address gets
    in at the instance. *)
Lemma http_chain_web_only_at :
  let o := {| address := 16909060; memberOf := [] |} in
  let m := {| address := 167772170; memberOf := ["ALBSecurityGroup"] |} in
  validIpv4 (address o)
  /\ (exists g,
         synth "AWSstack" None AWSstack = inr g
         /\ httpChain g
         /\ permits g "ALBSecurityGroup" o TCP 80 = true
         /\ permits g "EC2SecurityGroup" m TCP 80 = true
         /\ permits g "EC2SecurityGroup" o TCP 80 <> true)
  /\ (exists g,
         synth "Ec2LoggingStack" tokyo (Ec2LoggingStack "/app/lib") = inr g
         /\ permits g "WebSG" o TCP 80 = true).
Proof.
  intros o m.
  assert (Ho : validIpv4 (address o)) by (unfold validIpv4; simpl; lia).
  destruct http_chain_web_only as [Hweb Hlog].
  split; [exact Ho|]. split.
  - destruct (Hweb "AWSstack" None)
      as (g & lb & albsg & fleet & fleetsg & Hg & Hchain & Hlb & Hlbsg
          & Hfl & Hflsg & _ & _ & Halb & Hfleet).
    rewrite synth_AWSstack in Hg. injection Hg as <-.
    injection Hlb as <-. injection Hlbsg as <-.
    injection Hfl as <-. injection Hflsg as <-.
    eexists. split; [apply synth_AWSstack|].
    split; [exact Hchain|].
    split; [exact (Halb o Ho)|].
    split; [apply (proj2 (Hfleet m)); left; reflexivity|].
    intros Hp. apply (proj1 (Hfleet o)) in Hp. exact Hp.
  - destruct (Hlog "/app/lib" "Ec2LoggingStack" tokyo)
      as (g & inst & sg & Hg & _ & Hinst & Hsg & Hopen).
    rewrite synth_Ec2LoggingStack in Hg. injection Hg as <-.
    injection Hinst as <-. injection Hsg as <-.
    eexists. split; [apply synth_Ec2LoggingStack|].
    exact (Hopen o Ho).
Defined.

(** C2, as stated, fails: the instance of the logging stack is compute,
    and its security group lets TCP in on port 80 from an address that
    is a member of no group. *)
Lemma http_chain_fails_on_logging : ~ (forall g, Produced g -> httpChain g).
Proof.
  intros H.
  set (g := {| stackId := "Ec2LoggingStack"; stackProps := tokyo;
               nodes := loggingNodes "/app/lib" |}).
  assert (Hg : Produced g)
    by (apply (produced_logging "/app/lib" "Ec2LoggingStack" tokyo); reflexivity).
  destruct (H g Hg) as [_ Hc].
  assert (Hinst : exists n, In n (nodesOfKind g KInstance)
                            /\ In "WebSG" (securityGroupsOf n))
    by (eexists; split; [simpl; left; reflexivity | simpl; left; reflexivity]).
  destruct Hinst as (n & Hn & Hsg).
  apply nodesOfKind_In in Hn as [Hin Hk].
  destruct (Hc n "WebSG" {| address := 16909060; memberOf := [] |} Hin)
    as (lb & albsg & _ & _ & _ & []).
  - rewrite Hk. reflexivity.
  - exact Hsg.
  - reflexivity.
Qed.

(** ** Dependencies *)

Lemma path_trans g a b c : path g a b -> path g b c -> path g a c.
Proof.
  induction 1 as [a b He | a b b' He _ IH]; intros Hc.
  - now apply path_step with b.
  - apply path_step with b; [assumption | now apply IH].
Qed.

Lemma findNode_edge g a n b :
  findNode g a = Some n -> In b (nodeRefs n) -> edge g a b.
Proof.
  intros Hf Hb. apply find_some in Hf as [Hin Hn].
  apply String.eqb_eq in Hn. now exists n.
Qed.

Lemma dependencyOrder_In l n : In n (dependencyOrder l) <-> In n l.
Proof.
  unfold dependencyOrder. rewrite in_app_iff, !filter_In.
  destruct (Kind_eqb (kind n) KApplicationTargetGroup); simpl; intuition.
Qed.

Lemma edge_ordered g a b : edge g a b <-> edge (ordered g) a b.
Proof.
  unfold edge, ordered. simpl.
  split; intros (n & Hin & H); exists n.
  - split; [exact (proj2 (dependencyOrder_In (nodes g) n) Hin) | exact H].
  - split; [exact (proj1 (dependencyOrder_In (nodes g) n) Hin) | exact H].
Qed.

Lemma path_ordered g a b : path g a b -> path (ordered g) a b.
Proof.
  induction 1 as [a b He | a b c He _ IH].
  - apply path_edge. exact (proj1 (edge_ordered g a b) He).
  - apply path_step with b; [exact (proj1 (edge_ordered g a b) He) | exact IH].
Qed.

Section DependencyOrder.

Variable g : Stack.
Hypothesis sorted : backward [] (dependencyOrder (nodes g)) = true.

Lemma ordered_path_rank a b :
  path g a b ->
  rank (dependencyOrder (nodes g)) b < rank (dependencyOrder (nodes g)) a.
Proof.
  intros Hp. apply path_ordered in Hp.
  exact (backward_path (ordered g) sorted a b Hp).
Qed.

Lemma ordered_acyclic : acyclic g.
Proof. intros a Hp. apply ordered_path_rank in Hp. lia. Qed.

Lemma ordered_noDangling : noDangling g.
Proof.
  intros n r Hin Hr.
  destruct (backward_noDangling (ordered g) sorted n r) as (m & Hm & Hname).
  - simpl. exact (proj2 (dependencyOrder_In (nodes g) n) Hin).
  - exact Hr.
  - exists m. split; [|exact Hname].
    simpl in Hm. exact (proj1 (dependencyOrder_In (nodes g) m) Hm).
Qed.

End DependencyOrder.

Lemma sorted_web id props :
  backward []
    (dependencyOrder
       (nodes {| stackId := id; stackProps := props; nodes := webNodes |}))
  = true.
Proof. reflexivity. Qed.

Lemma sorted_logging dirname id props :
  backward []
    (dependencyOrder
       (nodes {| stackId := id; stackProps := props;
                 nodes := loggingNodes dirname |}))
  = true.
Proof. reflexivity. Qed.

Lemma Produced_sorted g :
  Produced g -> backward [] (dependencyOrder (nodes g)) = true.
Proof.
  intros Hg.
  destruct (Produced_inv g Hg)
    as [(id & props & ->) | (dirname & id & props & ->)];
    [apply sorted_web | apply sorted_logging].
Qed.

(** C3. Every graph the builder produces is acyclic and has no dangling
    reference: whatever a node refers to, in its parameters, rules,
    statements or [dependsOn], is a node of the graph. Where there is a
    load balancer, the fleet's security group depends on the load
    balancer's by a SecurityRule reference, the fleet is a member of
    the target group by a TargetMembership edge and the listener routes
    to that group by an edge of another kind; the fleet leads to the
    load balancer's security group, and nothing leads from that group
    back to the fleet, nor from the fleet to the listener that targets
    it. *)
Theorem graph_acyclic_no_dangling (g : Stack) :
  Produced g ->
  acyclic g
  /\ noDangling g
  /\ forall lb,
       In lb (nodes g) -> kind lb = KApplicationLoadBalancer ->
       exists albsg fleet fleetsg tg listener,
         securityGroupsOf lb = [albsg]
         /\ nodesOfKind g KAutoScalingGroup = [fleet]
         /\ securityGroupsOf fleet = [fleetsg]
         /\ nodesOfKind g KApplicationTargetGroup = [tg]
         /\ nodesOfKind g KApplicationListener = [listener]
         /\ dependsOnBy g fleetsg SecurityRuleReference albsg
         /\ dependsOnBy g (name fleet) TargetMembership (name tg)
         /\ dependsOnBy g (name listener) Routing (name tg)
         /\ path g (name listener) (name lb)
         /\ path g (name fleet) albsg
         /\ ~ path g albsg (name fleet)
         /\ ~ path g (name fleet) (name listener).
Proof.
  intros Hg.
  pose proof (Produced_sorted g Hg) as Hsorted.
  assert (Hacyclic : acyclic g) by (now apply ordered_acyclic).
  split; [exact Hacyclic|].
  split; [now apply ordered_noDangling|].
  intros lb Hin Hk.
  destruct (Produced_inv g Hg)
    as [(id & props & ->) | (dirname & id & props & ->)].
  - unfold nodes, webNodes in Hin. each_node Hin Hk.
    match goal with
    | |- exists _ fleet _ _ _, _ /\ nodesOfKind ?g _ = _ /\ _ =>
        assert (Hpath : path g "WordPressASG" "ALBSecurityGroup")
    end.
    { apply path_step with "EC2SecurityGroup"; [|apply path_edge].
      - eapply findNode_edge;
          [reflexivity | apply existsb_eqb_In; reflexivity].
      - eapply findNode_edge;
          [reflexivity | apply existsb_eqb_In; reflexivity]. }
    do 5 eexists.
    do 5 (split; [reflexivity|]).
    split; [eexists; split; [reflexivity | simpl; repeat (first [left; reflexivity | right])]|].
    split; [eexists; split; [reflexivity | simpl; repeat (first [left; reflexivity | right])]|].
    split; [eexists; split; [reflexivity | simpl; repeat (first [left; reflexivity | right])]|].
    split.
    { apply path_edge. eapply findNode_edge;
        [reflexivity | apply existsb_eqb_In; reflexivity]. }
    split; [exact Hpath|]. split.
    + intros Hback. apply (Hacyclic "WordPressASG").
      exact (path_trans _ _ _ _ Hpath Hback).
    + intros Hup. apply (ordered_path_rank _ Hsorted) in Hup.
      vm_compute in Hup. lia.
  - unfold nodes, loggingNodes in Hin. each_node Hin Hk.
Qed.

(** The web stack and its load balancer. *)
Lemma graph_acyclic_no_dangling_web :
  let g := {| stackId := "AWSstack"; stackProps := None; nodes := webNodes |} in
  Produced g
  /\ acyclic g
  /\ noDangling g
  /\ exists lb,
       In lb (nodes g) /\ kind lb = KApplicationLoadBalancer
       /\ exists albsg fleet fleetsg tg listener,
            securityGroupsOf lb = [albsg]
            /\ nodesOfKind g KAutoScalingGroup = [fleet]
            /\ securityGroupsOf fleet = [fleetsg]
            /\ nodesOfKind g KApplicationTargetGroup = [tg]
            /\ nodesOfKind g KApplicationListener = [listener]
            /\ dependsOnBy g fleetsg SecurityRuleReference albsg
            /\ dependsOnBy g (name fleet) TargetMembership (name tg)
            /\ dependsOnBy g (name listener) Routing (name tg)
            /\ path g (name listener) (name lb)
            /\ path g (name fleet) albsg
            /\ ~ path g albsg (name fleet)
            /\ ~ path g (name fleet) (name listener).
Proof.
  intros g.
  assert (Hg : Produced g)
    by (apply (produced_web "AWSstack" None); reflexivity).
  destruct (graph_acyclic_no_dangling g Hg) as (Ha & Hd & Hw).
  split; [exact Hg|]. split; [exact Ha|]. split; [exact Hd|].
  destruct (find (fun n => Kind_eqb (kind n) KApplicationLoadBalancer) (nodes g))
    as [lb|] eqn:E; [|discriminate E].
  apply find_some in E as [Hin Hk]. apply Kind_eqb_eq in Hk.
  exists lb. split; [exact Hin|]. split; [exact Hk|].
  exact (Hw lb Hin Hk).
Defined.

(** ** Subnets *)

(** C4. In every graph the builder produces, no subnet group of a
    network is both public and private, and every resource placed in
    private subnets is in a network that declares such subnets and NAT
    gateways, has the NAT gateway as its only path to the internet and
    no inbound path, and is attached to security groups that let
    nothing in from outside the stack. *)
Theorem private_resources_egress_only (g : Stack) :
  Produced g ->
  (forall vpc, In vpc (nodes g) -> kind vpc = KVpc ->
     separated (subnetConfiguration vpc))
  /\ (forall n t,
        In n (nodes g) -> placement n = Some t -> isPrivate t = true ->
        exists vpc groupName,
          vpcOf g n = Some vpc
          /\ kind vpc = KVpc
          /\ In (groupName, t) (subnetConfiguration vpc)
          /\ (0 < natGateways vpc)%Z
          /\ egressPath t = Some NatGateway
          /\ inboundPath t = None
          /\ forall sg o proto p,
               In sg (securityGroupsOf n) -> fromInternet g o ->
               permits g sg o proto p = false).
Proof.
  intros Hg.
  destruct (Produced_inv g Hg)
    as [(id & props & ->) | (dirname & id & props & ->)].
  - split.
    + intros vpc Hin Hk. unfold nodes, webNodes in Hin. each_node Hin Hk.
      intros n t t' H1 H2. simpl in H1, H2.
      destruct H1 as [H1 | [H1 | []]]; destruct H2 as [H2 | [H2 | []]];
        inversion H1; inversion H2; subst; try reflexivity; discriminate.
    + intros n t Hin Hp Hpriv.
      unfold nodes, webNodes in Hin. each_node Hin Hp;
        injection Hp as <-;
        (do 2 eexists;
         split; [reflexivity|]; split; [reflexivity|];
         split; [simpl; right; left; reflexivity|];
         split; [reflexivity|]; split; [reflexivity|]; split; [reflexivity|];
         intros sg o proto p Hsg Ho;
         simpl in Hsg; repeat (destruct Hsg as [<- | Hsg]);
         try contradiction;
         (destruct (permits _ _ o proto p) eqn:E; [|reflexivity];
          apply permits_spec in E as (r & Hr & _ & _ & _ & Hpeer);
          simpl in Hr; destruct Hr as [<- | []];
          cbn [source] in Hpeer; apply groupPeer_permits in Hpeer;
          apply Ho in Hpeer; discriminate Hpeer)).
  - split.
    + intros vpc Hin Hk. unfold nodes, loggingNodes in Hin. each_node Hin Hk.
      intros n t t' H1 H2. simpl in H1, H2.
      destruct H1 as [H1 | []]; destruct H2 as [H2 | []].
      inversion H1; inversion H2; subst; reflexivity.
    + intros n t Hin Hp Hpriv.
      unfold nodes, loggingNodes in Hin. each_node Hin Hp.
      injection Hp as <-. discriminate Hpriv.
Qed.

(** The database of the web stack, in private subnets, and an address
    of the internet. *)
Lemma private_resources_egress_only_web :
  let g := {| stackId := "AWSstack"; stackProps := None; nodes := webNodes |} in
  let o := {| address := 16909060; memberOf := [] |} in
  Produced g
  /\ fromInternet g o
  /\ exists db,
       In db (nodes g)
       /\ placement db = Some PRIVATE_WITH_EGRESS
       /\ isPrivate PRIVATE_WITH_EGRESS = true
       /\ exists vpc groupName,
            vpcOf g db = Some vpc
            /\ kind vpc = KVpc
            /\ In (groupName, PRIVATE_WITH_EGRESS) (subnetConfiguration vpc)
            /\ (0 < natGateways vpc)%Z
            /\ egressPath PRIVATE_WITH_EGRESS = Some NatGateway
            /\ inboundPath PRIVATE_WITH_EGRESS = None
            /\ forall sg o proto p,
                 In sg (securityGroupsOf db) -> fromInternet g o ->
                 permits g sg o proto p = false.
Proof.
  intros g o.
  assert (Hg : Produced g)
    by (apply (produced_web "AWSstack" None); reflexivity).
  assert (Ho : fromInternet g o) by (intros sg []).
  destruct (find (fun n => Kind_eqb (kind n) KDatabaseInstance) (nodes g))
    as [db|] eqn:E; [|discriminate E].
  assert (Hp : placement db = Some PRIVATE_WITH_EGRESS)
    by (injection E as <-; reflexivity).
  apply find_some in E as [Hin _].
  split; [exact Hg|]. split; [exact Ho|].
  exists db. split; [exact Hin|]. split; [exact Hp|]. split; [reflexivity|].
  exact (proj2 (private_resources_egress_only g Hg)
           db PRIVATE_WITH_EGRESS Hin Hp eq_refl).
Defined.

(** * Further properties of the two graphs *)

(** ** Construct ids *)

Lemma distinct_NoDup l : distinct l = true -> NoDup l.
Proof.
  induction l as [|x l IH]; simpl; intros H; [constructor|].
  apply andb_true_iff in H as [Hx Hl]. apply negb_true_iff in Hx.
  constructor; [|now apply IH].
  intros Hin. apply existsb_eqb_In in Hin. congruence.
Qed.

Lemma find_by_name l n :
  NoDup (map name l) -> In n l ->
  find (fun m => String.eqb (name m) (name n)) l = Some n.
Proof.
  induction l as [|m l IH]; simpl; intros Hnd Hin; [contradiction|].
  inversion Hnd as [|? ? Hm Hl]; subst.
  destruct Hin as [-> | Hin].
  - now rewrite String.eqb_refl.
  - destruct (String.eqb (name m) (name n)) eqn:E.
    + apply String.eqb_eq in E. exfalso. apply Hm. rewrite E.
      now apply in_map.
    + now apply IH.
Qed.

Lemma Produced_distinct g :
  Produced g -> distinct (map name (nodes g)) = true.
Proof.
  intros Hg.
  destruct (Produced_inv g Hg)
    as [(id & props & ->) | (dirname & id & props & ->)]; reflexivity.
Qed.

(** X1. In every graph the constructors produce, no two constructs
    share an id, so looking a node up by its name finds that node. *)
Theorem construct_ids_unique (g : Stack) :
  Produced g ->
  NoDup (map name (nodes g))
  /\ forall n, In n (nodes g) -> findNode g (name n) = Some n.
Proof.
  intros Hg.
  pose proof (distinct_NoDup _ (Produced_distinct g Hg)) as Hnd.
  split; [exact Hnd|].
  intros n Hin. now apply find_by_name.
Qed.

Lemma construct_ids_unique_logging :
  let g := {| stackId := "Ec2LoggingStack"; stackProps := tokyo;
              nodes := loggingNodes "/app/lib" |} in
  Produced g
  /\ NoDup (map name (nodes g))
  /\ forall n, In n (nodes g) -> findNode g (name n) = Some n.
Proof.
  intros g.
  assert (Hg : Produced g)
    by (apply (produced_logging "/app/lib" "Ec2LoggingStack" tokyo);
        reflexivity).
  split; [exact Hg|].
  exact (construct_ids_unique g Hg).
Defined.

(** ** Exposure *)

(** X2. In every graph the web constructor produces, the only traffic
    a security group lets in from a source outside the stack is TCP on
    port 80, and the group that lets it in is the load balancer's: no
    group is open to the outside on any other port, the port of SSH
    among them. *)
Theorem web_open_to_outside_only_on_alb (id : string)
    (props : option StackProps) :
  exists g lb albsg,
    synth id props AWSstack = inr g
    /\ nodesOfKind g KApplicationLoadBalancer = [lb]
    /\ securityGroupsOf lb = [albsg]
    /\ forall sg o proto p,
         fromInternet g o -> permits g sg o proto p = true ->
         sg = albsg /\ proto = TCP /\ p = 80%Z.
Proof.
  do 3 eexists.
  split; [apply synth_AWSstack|].
  do 2 (split; [reflexivity|]).
  intros sg o proto p Ho Hp.
  apply permits_spec in Hp as (r & Hr & _ & Hproto & Hport & Hpeer).
  unfold ingressRules in Hr.
  destruct (findNode _ sg) as [n|] eqn:F; [|contradiction].
  apply find_some in F as [Hin Hn]. apply String.eqb_eq in Hn.
  unfold nodes, webNodes in Hin. simpl in Hin.
  repeat (destruct Hin as [<- | Hin]); try contradiction;
    simpl in Hr; try contradiction;
    destruct Hr as [<- | []];
    cbn [protocol port source name] in Hproto, Hport, Hpeer, Hn.
  - auto.
  - apply groupPeer_permits in Hpeer. apply Ho in Hpeer. discriminate Hpeer.
  - apply groupPeer_permits in Hpeer. apply Ho in Hpeer. discriminate Hpeer.
Qed.

(** An address of the internet gets in at the load balancer, on port 80. *)
Lemma web_open_to_outside_only_on_alb_at :
  let o := {| address := 16909060; memberOf := [] |} in
  exists g,
    synth "AWSstack" None AWSstack = inr g
    /\ fromInternet g o
    /\ permits g "ALBSecurityGroup" o TCP 80 = true
    /\ "ALBSecurityGroup" = "ALBSecurityGroup" /\ TCP = TCP /\ 80%Z = 80%Z.
Proof.
  intros o.
  destruct (web_open_to_outside_only_on_alb "AWSstack" None)
    as (g & lb & albsg & Hg & Hlb & Hsg & Hopen).
  exists g.
  assert (E : g = {| stackId := "AWSstack"; stackProps := None;
                     nodes := webNodes |})
    by (rewrite synth_AWSstack in Hg; now injection Hg).
  assert (Ho : fromInternet g o) by (intros sg []).
  assert (Hp : permits g "ALBSecurityGroup" o TCP 80 = true)
    by (rewrite E; reflexivity).
  split; [exact Hg|]. split; [exact Ho|]. split; [exact Hp|].
  destruct (Hopen "ALBSecurityGroup" o TCP 80%Z Ho Hp) as (_ & H2 & H3).
  split; [reflexivity|]. split; [exact H2 | exact H3].
Defined.

(** ** Outputs *)

(** X3. The web stack has two outputs, [LoadBalancerDNS], the DNS name
    of its one load balancer, and [DBEndpoint], the endpoint address of
    its one database; the logging stack has none. *)
Theorem stack_outputs (dirname id : string) (props : option StackProps) :
  (exists g lb db,
      synth id props AWSstack = inr g
      /\ nodesOfKind g KApplicationLoadBalancer = [lb]
      /\ nodesOfKind g KDatabaseInstance = [db]
      /\ map (fun out => (name out, lookup "value" (parameters out)))
             (nodesOfKind g KCfnOutput)
         = [ ("LoadBalancerDNS", Some (VAttr (name lb) "loadBalancerDnsName"));
             ("DBEndpoint", Some (VAttr (name db) "dbInstanceEndpointAddress")) ])
  /\ (exists g,
         synth id props (Ec2LoggingStack dirname) = inr g
         /\ nodesOfKind g KCfnOutput = []).
Proof.
  split.
  - do 3 eexists.
    split; [apply synth_AWSstack|].
    do 2 (split; [reflexivity|]). reflexivity.
  - eexists. split; [apply synth_Ec2LoggingStack | reflexivity].
Qed.

(** ** The log pipeline *)

(** X4. In the logging stack the subscription filter delivers to the
    one function; the function runs as a declared role that is allowed
    [s3:PutObject] on the objects of the one bucket, the bucket whose
    name the function is given as [BUCKET_NAME]; and the filter depends,
    through the function, on that bucket. *)
Theorem log_pipeline_wired (dirname id : string) (props : option StackProps) :
  exists g filter fn bucket r role,
    synth id props (Ec2LoggingStack dirname) = inr g
    /\ nodesOfKind g KSubscriptionFilter = [filter]
    /\ nodesOfKind g KFunction = [fn]
    /\ nodesOfKind g KBucket = [bucket]
    /\ lookup "destination" (parameters filter)
       = Some (VCall "LambdaDestination" [VRef (name fn)])
    /\ lookup "environment" (parameters fn)
       = Some (VObj [("BUCKET_NAME", VAttr (name bucket) "bucketName")])
    /\ lookup "role" (parameters fn) = Some (VRef r)
    /\ findNode g r = Some role
    /\ kind role = KRole
    /\ In {| actions := ["s3:PutObject"];
             resources := [VTemplate [VAttr (name bucket) "bucketArn";
                                      VStr "/*"]] |}
          (statements role)
    /\ path g (name filter) (name bucket).
Proof.
  do 6 eexists.
  split; [apply synth_Ec2LoggingStack|].
  do 8 (split; [reflexivity|]).
  split; [simpl; left; reflexivity|].
  apply path_step with "LogProcessor"; [|apply path_edge];
    (eapply findNode_edge;
     [reflexivity | apply existsb_eqb_In; reflexivity]).
Qed.

(** ** The database *)

(** X5. The one database of the web stack is not publicly accessible,
    takes its credentials from the one secret of the stack, and is
    placed in the subnets of its subnet group: both select the private
    subnets with egress of the same network. *)
Theorem database_placement (id : string) (props : option StackProps) :
  exists g db subnets secret vpc,
    synth id props AWSstack = inr g
    /\ nodesOfKind g KDatabaseInstance = [db]
    /\ nodesOfKind g KSubnetGroup = [subnets]
    /\ nodesOfKind g KSecret = [secret]
    /\ nodesOfKind g KVpc = [vpc]
    /\ lookup "subnetGroup" (parameters db) = Some (VRef (name subnets))
    /\ placement db = Some PRIVATE_WITH_EGRESS
    /\ placement subnets = placement db
    /\ vpcOf g db = Some vpc
    /\ vpcOf g subnets = Some vpc
    /\ lookup "credentials" (parameters db)
       = Some (VCall "Credentials.fromSecret" [VRef (name secret)])
    /\ lookup "publiclyAccessible" (parameters db) = Some (VBool false).
Proof.
  do 5 eexists.
  split; [apply synth_AWSstack|].
  do 10 (split; [reflexivity|]). reflexivity.
Qed.

(** ** Networks and roles *)

(** X6. In every graph the constructors produce, a security group
    attached to a resource is a declared security group of the network
    the resource itself is in. *)
Theorem security_groups_in_network (g : Stack) (n : ResourceNode)
    (sg : NodeRef) :
  Produced g ->
  In n (nodes g) ->
  In sg (securityGroupsOf n) ->
  exists group vpc,
    findNode g sg = Some group
    /\ kind group = KSecurityGroup
    /\ vpcOf g n = Some vpc
    /\ vpcOf g group = Some vpc
    /\ kind vpc = KVpc.
Proof.
  intros Hg Hin Hsg.
  destruct (Produced_inv g Hg)
    as [(id & props & ->) | (dirname & id & props & ->)].
  - unfold nodes, webNodes in Hin. simpl in Hin.
    repeat (destruct Hin as [<- | Hin]); try contradiction;
      simpl in Hsg; repeat (destruct Hsg as [<- | Hsg]); try contradiction;
      (do 2 eexists; do 4 (split; [reflexivity|]); reflexivity).
  - unfold nodes, loggingNodes in Hin. simpl in Hin.
    repeat (destruct Hin as [<- | Hin]); try contradiction;
      simpl in Hsg; repeat (destruct Hsg as [<- | Hsg]); try contradiction;
      (do 2 eexists; do 4 (split; [reflexivity|]); reflexivity).
Qed.

(** The fleet of the web stack and its security group. *)
Lemma security_groups_in_network_fleet :
  let g := {| stackId := "AWSstack"; stackProps := None; nodes := webNodes |} in
  exists fleet,
    Produced g /\ In fleet (nodes g)
    /\ In "EC2SecurityGroup" (securityGroupsOf fleet)
    /\ exists group vpc,
         findNode g "EC2SecurityGroup" = Some group
         /\ kind group = KSecurityGroup
         /\ vpcOf g fleet = Some vpc
         /\ vpcOf g group = Some vpc
         /\ kind vpc = KVpc.
Proof.
  intros g.
  assert (Hg : Produced g)
    by (apply (produced_web "AWSstack" None); reflexivity).
  destruct (find (fun n => Kind_eqb (kind n) KAutoScalingGroup) (nodes g))
    as [fleet|] eqn:E; [|discriminate E].
  assert (Hsg : In "EC2SecurityGroup" (securityGroupsOf fleet))
    by (injection E as <-; simpl; left; reflexivity).
  apply find_some in E as [Hin _].
  exists fleet.
  split; [exact Hg|]. split; [exact Hin|]. split; [exact Hsg|].
  exact (security_groups_in_network g fleet "EC2SecurityGroup" Hg Hin Hsg).
Defined.

(** X7. In every graph the constructors produce, the role a resource
    runs as is a declared role, assumed by the service of that
    resource: the EC2 service for the fleet and the instance, the
    Lambda service for the function. *)
Theorem roles_assumed_by_service (g : Stack) (n : ResourceNode) (r : NodeRef) :
  Produced g ->
  In n (nodes g) ->
  lookup "role" (parameters n) = Some (VRef r) ->
  exists role,
    findNode g r = Some role
    /\ kind role = KRole
    /\ lookup "assumedBy" (parameters role)
       = Some (VCall "ServicePrincipal" [VStr (servicePrincipal (kind n))]).
Proof.
  intros Hg Hin Hr.
  destruct (Produced_inv g Hg)
    as [(id & props & ->) | (dirname & id & props & ->)].
  - unfold nodes, webNodes in Hin. each_node Hin Hr.
    injection Hr as <-.
    eexists. do 2 (split; [reflexivity|]). reflexivity.
  - unfold nodes, loggingNodes in Hin. each_node Hin Hr;
      injection Hr as <-;
      (eexists; do 2 (split; [reflexivity|]); reflexivity).
Qed.

(** The function of the logging stack runs as a role of the Lambda
    service. *)
Lemma roles_assumed_by_service_function :
  let g := {| stackId := "Ec2LoggingStack"; stackProps := tokyo;
              nodes := loggingNodes "/app/lib" |} in
  exists fn,
    Produced g /\ In fn (nodes g)
    /\ lookup "role" (parameters fn) = Some (VRef "LambdaRole")
    /\ kind fn = KFunction
    /\ exists role,
         findNode g "LambdaRole" = Some role
         /\ kind role = KRole
         /\ lookup "assumedBy" (parameters role)
            = Some (VCall "ServicePrincipal"
                      [VStr (servicePrincipal (kind fn))]).
Proof.
  intros g.
  assert (Hg : Produced g)
    by (apply (produced_logging "/app/lib" "Ec2LoggingStack" tokyo);
        reflexivity).
  destruct (find (fun n => Kind_eqb (kind n) KFunction) (nodes g))
    as [fn|] eqn:E; [|discriminate E].
  assert (Hr : lookup "role" (parameters fn) = Some (VRef "LambdaRole"))
    by (injection E as <-; reflexivity).
  apply find_some in E as [Hin Hk]. apply Kind_eqb_eq in Hk.
  exists fn.
  split; [exact Hg|]. split; [exact Hin|]. split; [exact Hr|].
  split; [exact Hk|].
  exact (roles_assumed_by_service g fn "LambdaRole" Hg Hin Hr).
Defined.

(** ** Bootstrap scripts *)

(** X8. The script of the logging stack's instance has a file-write
    block that is closed by a line [EOF]; the text it writes has
    properly nested braces and brackets and holds the two log group
    entries; and the one command after the block hands the log agent
    the very file the block writes. *)
Theorem agent_config_written_then_fetched (dirname id : string)
    (props : option StackProps) :
  exists g inst u file body later,
    synth id props (Ec2LoggingStack dirname) = inr g
    /\ nodesOfKind g KInstance = [inst]
    /\ userDataOf inst = Some u
    /\ heredoc (lines u) = Some (file, body, later)
    /\ nested [] false (join newline body) = true
    /\ agentLogGroupNames body = agentLogGroupNames (lines u)
    /\ List.length later = 1
    /\ flat_map fetchedConfig later = [file].
Proof.
  do 6 eexists.
  split; [apply synth_Ec2LoggingStack|].
  do 6 (split; [reflexivity|]). reflexivity.
Qed.

Lemma guarded_seen p q l : guarded p q true l = true.
Proof.
  induction l as [|x l IH]; simpl; [reflexivity|].
  now rewrite orb_true_r, IH.
Qed.

Lemma guarded_sound p q l :
  guarded p q false l = true ->
  forall i x, nth_error l i = Some x -> q x = true ->
    exists k y, k < i /\ nth_error l k = Some y /\ p y = true.
Proof.
  induction l as [|a l IH]; simpl; intros H i x Hi Hq.
  - destruct i; discriminate Hi.
  - apply andb_true_iff in H as [Ha Hrest].
    rewrite orb_false_r in Ha. apply negb_true_iff in Ha.
    destruct i as [|i]; simpl in Hi.
    + injection Hi as ->. congruence.
    + destruct (p a) eqn:Hp.
      * exists 0, a. repeat split; [lia | assumption].
      * simpl in Hrest.
        destruct (IH Hrest i x Hi Hq) as (k & y & Hk & Hy & Hpy).
        exists (S k), y. repeat split; [lia | assumption | assumption].
Qed.

(** X9. In the bootstrap script of every compute resource the
    constructors declare, a line that runs [systemctl] or the log
    agent comes after a line that installs the packages with
    [yum install]. *)
Theorem services_installed_before_use (g : Stack) (n : ResourceNode)
    (u : UserData) (i : nat) (line : string) :
  Produced g ->
  In n (nodes g) ->
  userDataOf n = Some u ->
  nth_error (lines u) i = Some line ->
  includes "systemctl" line || includes "amazon-cloudwatch-agent-ctl" line
  = true ->
  exists k install,
    k < i
    /\ nth_error (lines u) k = Some install
    /\ String.prefix "yum install -y httpd" install = true.
Proof.
  intros Hg Hin Hu Hi Hline.
  assert (Hguard :
            guarded (String.prefix "yum install -y httpd")
              (fun l => includes "systemctl" l
                        || includes "amazon-cloudwatch-agent-ctl" l)
              false (lines u) = true).
  { destruct (Produced_inv g Hg)
      as [(id & props & ->) | (dirname & id & props & ->)].
    - unfold nodes, webNodes in Hin. each_node Hin Hu.
      injection Hu as <-. reflexivity.
    - unfold nodes, loggingNodes in Hin. each_node Hin Hu.
      injection Hu as <-. reflexivity. }
  exact (guarded_sound _ _ _ Hguard i line Hi Hline).
Qed.

(** The agent of the logging stack is started by the last line of the
    script, after the packages are installed. *)
Lemma services_installed_before_use_agent :
  let g := {| stackId := "Ec2LoggingStack"; stackProps := tokyo;
              nodes := loggingNodes "/app/lib" |} in
  exists inst u line,
    Produced g /\ In inst (nodes g) /\ userDataOf inst = Some u
    /\ nth_error (lines u) 29 = Some line
    /\ includes "systemctl" line || includes "amazon-cloudwatch-agent-ctl" line
       = true
    /\ exists k install,
         k < 29
         /\ nth_error (lines u) k = Some install
         /\ String.prefix "yum install -y httpd" install = true.
Proof.
  intros g.
  assert (Hg : Produced g)
    by (apply (produced_logging "/app/lib" "Ec2LoggingStack" tokyo);
        reflexivity).
  destruct (find (fun n => Kind_eqb (kind n) KInstance) (nodes g))
    as [inst|] eqn:E; [|discriminate E].
  assert (Hu : userDataOf inst
               = Some (UserData.addCommands UserData.forLinux loggingCommands))
    by (injection E as <-; reflexivity).
  apply find_some in E as [Hin _].
  destruct (nth_error loggingCommands 29) as [line|] eqn:Hi;
    [|discriminate Hi].
  assert (Hline : includes "systemctl" line
                  || includes "amazon-cloudwatch-agent-ctl" line = true)
    by (injection Hi as <-; reflexivity).
  exists inst, (UserData.addCommands UserData.forLinux loggingCommands), line.
  split; [exact Hg|]. split; [exact Hin|]. split; [exact Hu|].
  split; [exact Hi|]. split; [exact Hline|].
  exact (services_installed_before_use g inst _ 29 line Hg Hin Hu Hi Hline).
Defined.

(** ** Removal *)

(** X10. In every graph the constructors produce, each database,
    database subnet group, bucket and log group is destroyed with the
    stack, by the removal policy given at its declaration or applied to
    it afterwards, and no resource asks for deletion protection. *)
Theorem stateful_resources_destroyed (g : Stack) (n : ResourceNode) :
  Produced g ->
  In n (nodes g) ->
  (isStateful (kind n) = true -> effectiveRemoval n = Some DESTROY)
  /\ lookup "deletionProtection" (parameters n) <> Some (VBool true).
Proof.
  intros Hg Hin.
  destruct (Produced_inv g Hg)
    as [(id & props & ->) | (dirname & id & props & ->)].
  - unfold nodes, webNodes in Hin. simpl in Hin.
    repeat (destruct Hin as [<- | Hin]); try contradiction;
      (split; [intros Hk; first [discriminate Hk | reflexivity]
              | discriminate]).
  - unfold nodes, loggingNodes in Hin. simpl in Hin.
    repeat (destruct Hin as [<- | Hin]); try contradiction;
      (split; [intros Hk; first [discriminate Hk | reflexivity]
              | discriminate]).
Qed.

(** The log group of the logging stack, to which the policy is applied
    after the subscription filter is declared. *)
Lemma stateful_resources_destroyed_log_group :
  let g := {| stackId := "Ec2LoggingStack"; stackProps := tokyo;
              nodes := loggingNodes "/app/lib" |} in
  exists lg,
    Produced g /\ In lg (nodes g) /\ isStateful (kind lg) = true
    /\ removalPolicy lg = Some DESTROY
    /\ effectiveRemoval lg = Some DESTROY.
Proof.
  intros g.
  assert (Hg : Produced g)
    by (apply (produced_logging "/app/lib" "Ec2LoggingStack" tokyo);
        reflexivity).
  destruct (find (fun n => Kind_eqb (kind n) KLogGroup) (nodes g))
    as [lg|] eqn:E; [|discriminate E].
  assert (Hp : removalPolicy lg = Some DESTROY)
    by (injection E as <-; reflexivity).
  apply find_some in E as [Hin Hk]. apply Kind_eqb_eq in Hk.
  assert (Hs : isStateful (kind lg) = true) by (rewrite Hk; reflexivity).
  exists lg.
  split; [exact Hg|]. split; [exact Hin|]. split; [exact Hs|].
  split; [exact Hp|].
  exact (proj1 (stateful_resources_destroyed g lg Hg Hin) Hs).
Defined.
